(** * QSPI XIP example (PSoC 6): the flash self-test and the XIP transition

    A shallow embedding of [main.c].  The program talks to vendor code
    (board support package, retarget-io, GPIO HAL, serial-flash driver) and
    never returns, so every function of [main.c] is an interaction tree over
    the calls it makes; the calls get their meaning from a handler over a
    [World] made of the console text, the level of the user LED, the state
    of the vendor platform and a record of the serial-flash driver calls. *)

From Stdlib Require Import ZArith List String Ascii Bool Lia.
From Stdlib Require Import Strings.Byte.
From Stdlib Require Import DecimalString HexadecimalString.
From ITree Require Import ITree.
Import ListNotations.
Import ITreeNotations.
Local Open Scope string_scope.
Local Open Scope Z_scope.
Local Open Scope itree_scope.

Set Implicit Arguments.

(** ** Machine integers and bytes *)

(** [uint32_t], [size_t], [cy_rslt_t] and [unsigned long] are 32 bits wide
    on the Cortex-M4 this program is built for. *)
Definition u32 (z : Z) : Z := z mod 2 ^ 32.

Definition byte_to_Z (b : byte) : Z := Z.of_N (Byte.to_N b).

(** The conversion [(uint8_t) z]. *)
Definition u8 (z : Z) : byte :=
  match Byte.of_N (Z.to_N (z mod 256)) with
  | Some b => b
  | None => x00
  end.

(** ** Macros of [main.c] *)

Definition PACKET_SIZE : Z := 64.
Definition NUM_BYTES_PER_LINE : Z := 16.
Definition LED_TOGGLE_DELAY_MSEC : Z := 1000.
Definition MEM_SLOT_NUM : Z := 0.
Definition QSPI_BUS_FREQUENCY_HZ : Z := 50000000.

(** ** Text produced by [printf] *)

Definition nl : string := String (ascii_of_nat 10) EmptyString.
Definition esc : string := String (ascii_of_nat 27) EmptyString.

Definition upper_hex_char (c : ascii) : ascii :=
  let n := nat_of_ascii c in
  if ((97 <=? n)%nat && (n <=? 102)%nat)%bool then ascii_of_nat (n - 32) else c.

Fixpoint upper_hex (s : string) : string :=
  match s with
  | EmptyString => EmptyString
  | String c s' => String (upper_hex_char c) (upper_hex s')
  end.

Fixpoint zeros (n : nat) : string :=
  match n with
  | O => EmptyString
  | S n' => String "0" (zeros n')
  end.

(** [%u] and [%lu]. *)
Definition fmt_u (v : Z) : string :=
  DecimalString.NilZero.string_of_uint (N.to_uint (Z.to_N v)).

(** [%lx]. *)
Definition fmt_lx (v : Z) : string :=
  HexadecimalString.NilZero.string_of_uint (N.to_hex_uint (Z.to_N v)).

(** [%0wX] and [%0wlX]: upper case, padded with zeros to [w] digits. *)
Definition fmt_0X (w : nat) (v : Z) : string :=
  let digits := upper_hex (fmt_lx v) in
  zeros (w - String.length digits) ++ digits.

(** ** Buffers *)

(** A declaration [uint8_t a[n]] without initialiser: [n] bytes of
    indeterminate value, given by [junk]. *)
Definition uninit (junk : nat -> byte) (n : Z) : list byte :=
  map junk (seq 0 (Z.to_nat n)).

(** The assignment [a[index] = v]; a store outside the array is undefined
    in C and leaves the model unchanged. *)
Fixpoint store (a : list byte) (index : nat) (v : byte) : list byte :=
  match a, index with
  | [], _ => []
  | _ :: t, O => v :: t
  | h :: t, S i => h :: store t i v
  end.

(** The read [a[index]]; a read outside the array is undefined in C and
    yields zero in the model. *)
Definition load (a : list byte) (index : Z) : byte :=
  nth (Z.to_nat index) a x00.

(** What a driver leaves in a destination buffer [buf] when it delivers
    [data] for a transfer of [len] bytes: the bytes delivered, from the start
    of the buffer and at most [len] of them; the rest of the buffer keeps what
    it held. *)
Fixpoint deliver (data : list byte) (len : nat) (buf : list byte) : list byte :=
  match buf, len, data with
  | b :: buf', S len', d :: data' => d :: deliver data' len' buf'
  | _, _, _ => buf
  end.

(** [memcmp] from the C library, in the usual implementation: the
    difference of the first pair of bytes that differ (the standard fixes
    only its sign), zero when the first [n] bytes agree.  Running off either
    array is undefined in C; the model stops there with zero. *)
Fixpoint memcmp (s1 s2 : list byte) (n : nat) : Z :=
  match n, s1, s2 with
  | S n', b1 :: t1, b2 :: t2 =>
      if Byte.eqb b1 b2 then memcmp t1 t2 n' else byte_to_Z b1 - byte_to_Z b2
  | _, _, _ => 0
  end.

(** ** Calls into vendor code *)

Variant hwE : Type -> Type :=
| BspInit : hwE Z
| EnableIrq : hwE unit
| RetargetIoInit : hwE unit
| GpioInit (level : bool) : hwE unit
| GpioWrite (level : bool) : hwE unit
| GpioToggle : hwE unit
| DelayMs (ms : Z) : hwE unit
| Printf (text : string) : hwE unit
| QspiInit (hz : Z) : hwE Z
| QspiGetEraseSize (addr : Z) : hwE Z
| QspiGetSize : hwE Z
| QspiErase (addr len : Z) : hwE Z
| QspiRead (addr len : Z) (buf : list byte) : hwE (Z * list byte)
| QspiWrite (addr len : Z) (buf : list byte) : hwE Z
| QspiEnableXip (enable : bool) : hwE unit.

Definition prog := itree hwE.

Definition cybsp_init : prog Z := ITree.trigger BspInit.
Definition __enable_irq : prog unit := ITree.trigger EnableIrq.
Definition cy_retarget_io_init : prog unit := ITree.trigger RetargetIoInit.
Definition cyhal_gpio_init (level : bool) : prog unit := ITree.trigger (GpioInit level).
Definition cyhal_gpio_write (level : bool) : prog unit := ITree.trigger (GpioWrite level).
Definition cyhal_gpio_toggle : prog unit := ITree.trigger GpioToggle.
Definition cyhal_system_delay_ms (ms : Z) : prog unit := ITree.trigger (DelayMs ms).
Definition printf (text : string) : prog unit := ITree.trigger (Printf text).
Definition cy_serial_flash_qspi_init (hz : Z) : prog Z := ITree.trigger (QspiInit hz).
Definition cy_serial_flash_qspi_get_erase_size (addr : Z) : prog Z :=
  ITree.trigger (QspiGetEraseSize addr).
Definition cy_serial_flash_qspi_get_size : prog Z := ITree.trigger QspiGetSize.
Definition cy_serial_flash_qspi_erase (addr len : Z) : prog Z :=
  ITree.trigger (QspiErase addr len).
Definition cy_serial_flash_qspi_read (addr len : Z) (buf : list byte) : prog (Z * list byte) :=
  ITree.trigger (QspiRead addr len buf).
Definition cy_serial_flash_qspi_write (addr len : Z) (buf : list byte) : prog Z :=
  ITree.trigger (QspiWrite addr len buf).
Definition cy_serial_flash_qspi_enable_xip (enable : bool) : prog unit :=
  ITree.trigger (QspiEnableXip enable).

(** [while(true);] *)
Definition wait_forever {R} : prog R := ITree.forever (Ret tt).

(** ** The build: what the BSP headers, the memory configuration and the
    linker fix, none of which is in [main.c] *)

Record Build : Type := {
  (** pin levels that light and darken the user LED *)
  CYBSP_LED_STATE_ON : bool;
  CYBSP_LED_STATE_OFF : bool;
  (** [smifMemConfigs[MEM_SLOT_NUM]->baseAddress] *)
  baseAddress : Z;
  (** [&hi_word] and [&print_from_external_memory], as the linker placed them *)
  hi_word_addr : Z;
  print_from_external_memory_addr : Z;
  (** whether [CY_ASSERT] is compiled out *)
  NDEBUG : bool;
  (** what the stack holds where [txBuffer] and [rxBuffer] are declared *)
  txBuffer_junk : nat -> byte;
  rxBuffer_junk : nat -> byte
}.

Definition CY_RSLT_SUCCESS : Z := 0.

Definition rule80 : string :=
  "================================================================================".
Definition rule25 : string := "-------------------------".
Definition rule55 : string := "-------------------------------------------------------".

Definition hi_word : string := "Hello from the external string!" ++ nl.

Section Program.

Variable bld : Build.

(** [CY_ASSERT] of the PDL: nothing when [NDEBUG] is defined, otherwise a
    false condition halts the core. *)
Definition CY_ASSERT (cond : bool) : prog unit :=
  if NDEBUG bld then Ret tt
  else if cond then Ret tt else wait_forever.

Definition print_from_external_memory (buf : string) : prog unit :=
  printf buf.

Definition check_status (message : string) (status : Z) : prog unit :=
  if negb (0 =? status) then
    printf (nl ++ rule80 ++ nl);;
    printf (nl ++ "FAIL: " ++ message ++ nl);;
    printf ("Error Code: 0x" ++ fmt_0X 8 status ++ nl);;
    printf (nl ++ rule80 ++ nl);;
    (* On failure, turn the LED ON *)
    cyhal_gpio_write (CYBSP_LED_STATE_ON bld);;
    wait_forever
  else Ret tt.

Definition print_array (message : string) (buf : list byte) (size : Z) : prog unit :=
  printf (nl ++ message ++ " (" ++ fmt_u size ++ " bytes):" ++ nl);;
  printf (rule25 ++ nl);;
  ITree.iter (fun index : Z =>
    if index <? size then
      printf ("0x" ++ fmt_0X 2 (byte_to_Z (load buf index)) ++ " ");;
      (if 0 =? u32 (index + 1) mod NUM_BYTES_PER_LINE then printf nl else Ret tt);;
      Ret (inl (u32 (index + 1)))
    else Ret (inr tt)) 0.

Definition check_address (message : string) (addr : Z) : prog unit :=
  if baseAddress bld >? addr then
    printf (nl ++ rule80 ++ nl);;
    printf ("FAIL: " ++ message ++ nl);;
    printf ("Address: 0x" ++ fmt_lx addr);;
    printf (nl ++ rule80 ++ nl);;
    (* On failure, turn the LED ON *)
    cyhal_gpio_write (CYBSP_LED_STATE_ON bld);;
    wait_forever
  else Ret tt.

(** The loop of [main] that fills the transfer buffers. *)
Definition init_buffers (txBuffer rxBuffer : list byte) : list byte * list byte :=
  fold_left
    (fun bufs index =>
       (store (fst bufs) index (u8 (Z.land (Z.of_nat index) 255)),
        store (snd bufs) index x00))
    (seq 0 (Z.to_nat PACKET_SIZE))
    (txBuffer, rxBuffer).

Definition main : prog Z :=
  (* Initialize the device and board peripherals *)
  result <- cybsp_init;;
  CY_ASSERT (result =? CY_RSLT_SUCCESS);;
  (* Enable global interrupts *)
  __enable_irq;;
  (* Initialize retarget-io to use the debug UART port *)
  cy_retarget_io_init;;
  (* Initialize the User LED *)
  cyhal_gpio_init (CYBSP_LED_STATE_OFF bld);;
  printf (esc ++ "[2J" ++ esc ++ "[;H");;
  printf ("*************** PSoC 6 MCU: External Flash Access in XIP Mode ***************"
            ++ nl ++ nl);;
  (* Initialize the QSPI block *)
  result <- cy_serial_flash_qspi_init QSPI_BUS_FREQUENCY_HZ;;
  check_status "Serial Flash initialization failed" result;;
  (* Initialize the transfer buffers *)
  let txBuffer := uninit (txBuffer_junk bld) PACKET_SIZE in
  let rxBuffer := uninit (rxBuffer_junk bld) PACKET_SIZE in
  let '(txBuffer, rxBuffer) := init_buffers txBuffer rxBuffer in
  (* Set the address to transact with to the start of the second sector *)
  let extMemAddress := 0 in
  sectorSize <- cy_serial_flash_qspi_get_erase_size extMemAddress;;
  let extMemAddress := sectorSize in
  total <- cy_serial_flash_qspi_get_size;;
  printf (nl ++ "1. Total Flash Size: " ++ fmt_u total ++ " bytes." ++ nl);;
  (* Erase before write *)
  printf (nl ++ "1. Erasing " ++ fmt_u sectorSize ++ " bytes of memory." ++ nl);;
  result <- cy_serial_flash_qspi_erase extMemAddress sectorSize;;
  check_status "Erasing memory failed" result;;
  (* Read after Erase to confirm that all data is 0xFF *)
  printf (nl ++ "2. Reading after Erase. Ensure that the data read is 0xFF for each byte." ++ nl);;
  '(result, rxBuffer) <- cy_serial_flash_qspi_read extMemAddress PACKET_SIZE rxBuffer;;
  check_status "Reading memory failed" result;;
  print_array "Received Data" rxBuffer PACKET_SIZE;;
  (* Write the content of the txBuffer to the memory *)
  printf (nl ++ "3. Writing data to memory." ++ nl);;
  result <- cy_serial_flash_qspi_write extMemAddress PACKET_SIZE txBuffer;;
  check_status "Writing to memory failed" result;;
  print_array "Written Data" txBuffer PACKET_SIZE;;
  (* Read back after Write for verification *)
  printf (nl ++ "4. Reading back for verification." ++ nl);;
  '(result, rxBuffer) <- cy_serial_flash_qspi_read extMemAddress PACKET_SIZE rxBuffer;;
  check_status "Reading memory failed" result;;
  print_array "Received Data" rxBuffer PACKET_SIZE;;
  (* Check if the transmitted and received arrays are equal *)
  check_status "Read data does not match with written data. Read/Write operation failed."
               (u32 (memcmp txBuffer rxBuffer (Z.to_nat PACKET_SIZE)));;
  printf (nl ++ rule80 ++ nl);;
  printf (nl ++ "SUCCESS: Read data matches with written data!" ++ nl);;
  printf (nl ++ rule80 ++ nl);;
  (* Put the device in XIP mode *)
  printf (nl ++ "5. Entering XIP Mode." ++ nl);;
  cy_serial_flash_qspi_enable_xip true;;
  let addr := u32 (hi_word_addr bld) in
  check_address "String not found in external memory." addr;;
  (* Print the string from external memory *)
  printf (nl ++ "String in the external memory at address: 0x" ++ fmt_lx addr);;
  printf (nl ++ rule55 ++ nl ++ hi_word);;
  let addr := u32 (print_from_external_memory_addr bld) in
  check_address "Function not found in external memory." addr;;
  (* Print by calling function that lives in external memory *)
  printf (nl ++ "Function call from external memory address: 0x" ++ fmt_lx addr);;
  printf (nl ++ rule55);;
  print_from_external_memory (nl ++ "Hello from the external function!" ++ nl);;
  printf (nl ++ rule80 ++ nl);;
  printf (nl ++ "SUCCESS: Data successfully accessed in XIP mode!" ++ nl);;
  printf (nl ++ rule80 ++ nl);;
  ITree.forever (
    cyhal_gpio_toggle;;
    cyhal_system_delay_ms LED_TOGGLE_DELAY_MSEC).

End Program.

(** ** The world the program runs in *)

(** One entry per call into the serial-flash driver, with what the call
    returned. *)
Inductive Call : Type :=
| CInit (hz : Z) (status : Z)
| CGetEraseSize (addr : Z) (size : Z)
| CGetSize (size : Z)
| CErase (addr len : Z) (status : Z)
| CRead (addr len : Z) (status : Z) (buf : list byte)
| CWrite (addr len : Z) (buf : list byte) (status : Z)
| CEnableXip (enable : bool).

(** The vendor platform, over a state [Dev] of its own (driver variables,
    controller registers, the flash cells). *)
Record Platform (Dev : Type) : Type := {
  bsp_init : Dev -> Z * Dev;
  qspi_init : Z -> Dev -> Z * Dev;
  qspi_get_erase_size : Z -> Dev -> Z;
  qspi_get_size : Dev -> Z;
  qspi_erase : Z -> Z -> Dev -> Z * Dev;
  (** status and the bytes delivered into the caller's buffer *)
  qspi_read : Z -> Z -> Dev -> Z * list byte * Dev;
  qspi_write : Z -> Z -> list byte -> Dev -> Z * Dev;
  qspi_enable_xip : bool -> Dev -> Dev
}.

Record World (Dev : Type) : Type := mkWorld {
  dev : Dev;
  console : string;
  led : bool;
  calls : list Call
}.

Section Semantics.

Context {Dev : Type}.
Variable plat : Platform Dev.

Definition set_dev (d : Dev) (w : World Dev) : World Dev :=
  mkWorld d (console w) (led w) (calls w).
Definition set_led (l : bool) (w : World Dev) : World Dev :=
  mkWorld (dev w) (console w) l (calls w).
Definition print (text : string) (w : World Dev) : World Dev :=
  mkWorld (dev w) (console w ++ text) (led w) (calls w).
Definition record (c : Call) (d : Dev) (w : World Dev) : World Dev :=
  mkWorld d (console w) (led w) (calls w ++ [c])%list.

(** What each call does to the world and what it returns.  Results of type
    [cy_rslt_t] and [size_t] are 32 bits wide. *)
Definition handle {T} (e : hwE T) (w : World Dev) : T * World Dev :=
  match e in hwE T return T * World Dev with
  | BspInit =>
      let '(r, d) := bsp_init plat (dev w) in (u32 r, set_dev d w)
  | EnableIrq => (tt, w)
  | RetargetIoInit => (tt, w)
  | GpioInit level => (tt, set_led level w)
  | GpioWrite level => (tt, set_led level w)
  | GpioToggle => (tt, set_led (negb (led w)) w)
  | DelayMs _ => (tt, w)
  | Printf text => (tt, print text w)
  | QspiInit hz =>
      let '(r, d) := qspi_init plat hz (dev w) in
      (u32 r, record (CInit hz (u32 r)) d w)
  | QspiGetEraseSize addr =>
      let r := u32 (qspi_get_erase_size plat addr (dev w)) in
      (r, record (CGetEraseSize addr r) (dev w) w)
  | QspiGetSize =>
      let r := u32 (qspi_get_size plat (dev w)) in
      (r, record (CGetSize r) (dev w) w)
  | QspiErase addr len =>
      let '(r, d) := qspi_erase plat addr len (dev w) in
      (u32 r, record (CErase addr len (u32 r)) d w)
  | QspiRead addr len buf =>
      let '(r, data, d) := qspi_read plat addr len (dev w) in
      let buf' := deliver data (Z.to_nat len) buf in
      ((u32 r, buf'), record (CRead addr len (u32 r) buf') d w)
  | QspiWrite addr len buf =>
      let '(r, d) := qspi_write plat addr len buf (dev w) in
      (u32 r, record (CWrite addr len buf (u32 r)) d w)
  | QspiEnableXip enable =>
      (tt, record (CEnableXip enable) (qspi_enable_xip plat enable (dev w)) w)
  end.

(** Where a program is after at most [fuel] steps (calls and loop
    iterations): it has returned, with the steps left over, or it is still
    running. *)
Inductive Outcome (R : Type) : Type :=
| Returned (r : R) (w : World Dev) (left : nat)
| Running (w : World Dev).
Arguments Running {R} w.

Fixpoint run {R} (fuel : nat) (t : prog R) (w : World Dev) : Outcome R :=
  match observe t with
  | RetF r => Returned r w fuel
  | TauF t' =>
      match fuel with
      | O => Running w
      | S n => run n t' w
      end
  | VisF e k =>
      match fuel with
      | O => Running w
      | S n => let '(r, w') := handle e w in run n (k r) w'
      end
  end.

Definition world_of {R} (o : Outcome R) : World Dev :=
  match o with
  | Returned _ w _ => w
  | Running w => w
  end.

Definition returned {R} (o : Outcome R) : bool :=
  match o with
  | Returned _ _ _ => true
  | Running _ => false
  end.

(** [t], started in [w], returns [r] in world [w'] (after [c] steps). *)
Definition Returns {R} (t : prog R) (w : World Dev) (r : R) (w' : World Dev) : Prop :=
  exists c, forall n, run (c + n) t w = Returned r w' n.

(** [t], started in [w], never returns, and from some step on it sits in
    world [wf] for good. *)
Definition Halts {R} (t : prog R) (w wf : World Dev) : Prop :=
  exists c, forall n, (c <= n)%nat -> run n t w = Running wf.

(** [t], started in [w], never returns, and from some step on it only
    changes the level of the LED of [wf]. *)
Definition Idles {R} (t : prog R) (w wf : World Dev) : Prop :=
  exists c, forall n, (c <= n)%nat -> exists l, run n t w = Running (set_led l wf).

(** The record of driver calls only grows. *)
Definition grows (w w' : World Dev) : Prop :=
  exists cs, calls w' = (calls w ++ cs)%list.

End Semantics.

Arguments Running {Dev R} w.

(** ** A simulated flash device *)

(** Modelled from the spec: the state of the serial-flash driver and of the
    device behind it, which are vendor code outside this repository.  The
    cells of a NOR flash, its size, and [sim_faults], which scripts the
    status of the next status-returning calls (zero once it is used up). *)
Record Sim : Type := mkSim {
  sim_cells : Z -> byte;
  sim_size : Z;
  sim_faults : list Z;
  sim_xip : bool
}.

Definition sim_status (d : Sim) : Z * Sim :=
  match sim_faults d with
  | [] => (0, d)
  | s :: rest => (u32 s, mkSim (sim_cells d) (sim_size d) rest (sim_xip d))
  end.

Definition sim_set_cells (cells : Z -> byte) (d : Sim) : Sim :=
  mkSim cells (sim_size d) (sim_faults d) (sim_xip d).

Definition byte_and (a b : byte) : byte := u8 (Z.land (byte_to_Z a) (byte_to_Z b)).

Definition in_range (addr len a : Z) : bool := ((addr <=? a) && (a <? addr + len))%bool.

(** Modelled from the spec: the calls of the serial-flash driver on a NOR
    flash with sectors of [sector] bytes.  Erasing sets every byte of the
    range to 0xFF, programming can only clear bits, reading returns the
    cells; a call whose scripted status is not zero does nothing else.  A
    [worn] device reports success for an erase without touching the cells. *)
Definition sim_platform (sector : Z) (worn : bool) : Platform Sim := {|
  bsp_init := fun d => (0, d);
  qspi_init := fun _ d => sim_status d;
  qspi_get_erase_size := fun _ _ => sector;
  qspi_get_size := fun d => sim_size d;
  qspi_erase := fun addr len d =>
    let '(s, d) := sim_status d in
    if ((s =? 0) && negb worn)%bool
    then (s, sim_set_cells (fun a => if in_range addr len a then xff else sim_cells d a) d)
    else (s, d);
  qspi_read := fun addr len d =>
    let '(s, d) := sim_status d in
    if s =? 0
    then (s, map (fun i => sim_cells d (addr + Z.of_nat i)) (seq 0 (Z.to_nat len)), d)
    else (s, []%list, d);
  qspi_write := fun addr len buf d =>
    let '(s, d) := sim_status d in
    if s =? 0
    then (s, sim_set_cells
               (fun a => if in_range addr len a
                         then byte_and (sim_cells d a) (nth (Z.to_nat (a - addr)) buf xff)
                         else sim_cells d a) d)
    else (s, d);
  qspi_enable_xip := fun enable d =>
    mkSim (sim_cells d) (sim_size d) (sim_faults d) enable
|}.

(** A board for the examples: active-low LED, the XIP window at
    0x18000000, both symbols placed inside it. *)
Definition demo_build : Build := {|
  CYBSP_LED_STATE_ON := false;
  CYBSP_LED_STATE_OFF := true;
  baseAddress := 402653184;
  hi_word_addr := 402653184;
  print_from_external_memory_addr := 402653440;
  NDEBUG := false;
  txBuffer_junk := fun _ => xaa;
  rxBuffer_junk := fun _ => x55
|}.

(** The same board with the string linked into internal flash, below the
    XIP window. *)
Definition misplaced_build : Build := {|
  CYBSP_LED_STATE_ON := false;
  CYBSP_LED_STATE_OFF := true;
  baseAddress := 402653184;
  hi_word_addr := 268435456;
  print_from_external_memory_addr := 402653440;
  NDEBUG := false;
  txBuffer_junk := fun _ => xaa;
  rxBuffer_junk := fun _ => x55
|}.

(** A device of 512 bytes holding zeros, used with sectors of 128 bytes. *)
Definition demo_sim (faults : list Z) : Sim :=
  mkSim (fun _ => x00) 512 faults false.

Definition demo_platform : Platform Sim := sim_platform 128 false.
Definition worn_platform : Platform Sim := sim_platform 128 true.

(** The world at reset: nothing printed, no call made yet. *)
Definition boot {Dev} (d : Dev) (level : bool) : World Dev := mkWorld d "" level [].

(** ** What the console shows *)

(** The block [check_status] prints for a nonzero status. *)
Definition failure_block (message : string) (status : Z) : string :=
  (nl ++ rule80 ++ nl) ++
  (nl ++ "FAIL: " ++ message ++ nl) ++
  ("Error Code: 0x" ++ fmt_0X 8 status ++ nl) ++
  (nl ++ rule80 ++ nl).

(** The block [check_address] prints for an address below the window. *)
Definition placement_block (message : string) (addr : Z) : string :=
  (nl ++ rule80 ++ nl) ++
  ("FAIL: " ++ message ++ nl) ++
  ("Address: 0x" ++ fmt_lx addr) ++
  (nl ++ rule80 ++ nl).

(** A hexadecimal digit, upper case. *)
Definition hex_digit (d : Z) : ascii :=
  nth (Z.to_nat d) (list_ascii_of_string "0123456789ABCDEF") "0"%char.

(** The two hexadecimal digits of a byte, high digit first. *)
Definition hex_pair (b : byte) : string :=
  String (hex_digit (byte_to_Z b / 16)) (String (hex_digit (byte_to_Z b mod 16)) "").

(** The dump of [bytes], the first of which has index [index]: each byte
    as [0x] and its two digits followed by a space, and a newline after each
    byte whose index plus one is a multiple of 16. *)
Fixpoint hexdump (index : nat) (bytes : list byte) : string :=
  match bytes with
  | [] => ""
  | b :: rest =>
      "0x" ++ hex_pair b ++ " " ++
      (if (Z.of_nat index + 1) mod 16 =? 0 then nl else "") ++
      hexdump (S index) rest
  end.

(** All that [print_array] prints. *)
Definition array_text (message : string) (buf : list byte) (size : Z) : string :=
  (nl ++ message ++ " (" ++ fmt_u size ++ " bytes):" ++ nl) ++
  (rule25 ++ nl) ++
  hexdump 0 (firstn (Z.to_nat size) buf).

(** The pattern the self-test writes: byte [i] is [i mod 256]. *)
Definition pattern : list byte :=
  map (fun i => u8 (Z.of_nat i mod 256)) (seq 0 (Z.to_nat PACKET_SIZE)).

(** [text] contains [s]. *)
Definition shows (text s : string) : Prop :=
  exists before after, text = before ++ s ++ after.

(** ** What the record of calls shows *)

(** The status of an erase, read or write call. *)
Definition transfer_status (c : Call) : option Z :=
  match c with
  | CErase _ _ status => Some status
  | CRead _ _ status _ => Some status
  | CWrite _ _ _ status => Some status
  | _ => None
  end.

(** The flash address of an erase, read or write call. *)
Definition transfer_addr (c : Call) : option Z :=
  match c with
  | CErase addr _ _ => Some addr
  | CRead addr _ _ _ => Some addr
  | CWrite addr _ _ _ => Some addr
  | _ => None
  end.

(** The calls made before the first write, and those made after it. *)
Fixpoint before_write (cs : list Call) : list Call :=
  match cs with
  | [] => []
  | CWrite _ _ _ _ :: _ => []
  | c :: rest => c :: before_write rest
  end.

Fixpoint after_write (cs : list Call) : list Call :=
  match cs with
  | [] => []
  | CWrite _ _ _ _ :: rest => rest
  | _ :: rest => after_write rest
  end.

(** The data of the first write. *)
Fixpoint written (cs : list Call) : option (list byte) :=
  match cs with
  | [] => None
  | CWrite _ _ buf _ :: _ => Some buf
  | _ :: rest => written rest
  end.

(** Some erase, read or write call reported a nonzero status. *)
Definition transfer_failed (cs : list Call) : Prop :=
  exists c status, In c cs /\ transfer_status c = Some status /\ status <> 0.

(** The read after the write reported a nonzero status. *)
Definition readback_failed (cs : list Call) : Prop :=
  exists addr len status rx,
    In (CRead addr len status rx) (after_write cs) /\ status <> 0.

(** The buffer read back after the write differs from the data written. *)
Definition readback_mismatch (cs : list Call) : Prop :=
  exists tx addr len status rx,
    written cs = Some tx /\ In (CRead addr len status rx) (after_write cs) /\ rx <> tx.

(** ** The contract of the flash driver *)

(** Modelled from the spec: what the calls of the serial-flash driver, which
    is vendor code outside this repository, do to the cells of the flash
    (sections 4.1 and 8: an erased range holds the erased value 0xFF, erased
    cells that are written hold the data written, every other cell and every
    other call leave the content alone).  [cells d a] is the byte of the
    flash at address [a] when the platform is in state [d]; [sector] is the
    erase-sector size, which is at least one packet. *)
Record FlashContract {Dev : Type} (plat : Platform Dev)
       (cells : Dev -> Z -> byte) (sector : Z) : Prop := {
  fc_sector : forall d, u32 (qspi_get_erase_size plat 0 d) = sector;
  fc_packet_fits : PACKET_SIZE <= sector;
  fc_bsp_init : forall d a, cells (snd (bsp_init plat d)) a = cells d a;
  fc_init : forall hz d a, cells (snd (qspi_init plat hz d)) a = cells d a;
  fc_read : forall addr len d a, cells (snd (qspi_read plat addr len d)) a = cells d a;
  fc_enable_xip : forall enable d a, cells (qspi_enable_xip plat enable d) a = cells d a;
  fc_erase : forall addr len d a,
    u32 (fst (qspi_erase plat addr len d)) = 0 ->
    cells (snd (qspi_erase plat addr len d)) a =
    if in_range addr len a then xff else cells d a;
  fc_write : forall addr len buf d a,
    u32 (fst (qspi_write plat addr len buf d)) = 0 ->
    (in_range addr len a = true -> cells d a = xff ->
     cells (snd (qspi_write plat addr len buf d)) a = nth (Z.to_nat (a - addr)) buf xff) /\
    (in_range addr len a = false ->
     cells (snd (qspi_write plat addr len buf d)) a = cells d a)
}.

(** The content a passed write leaves: the pattern at the start of the
    second sector, the rest of that sector erased, every other cell as it
    was. *)
Definition after_selftest (sector : Z) (old : Z -> byte) (a : Z) : byte :=
  if in_range sector PACKET_SIZE a then nth (Z.to_nat (a - sector)) pattern xff
  else if in_range sector sector a then xff
  else old a.

(** The write call was made and reported success. *)
Definition write_succeeded (cs : list Call) : Prop :=
  exists addr len buf, In (CWrite addr len buf 0) cs.

(** ** The course of [main], step by step *)

Section Course.

Variable bld : Build.
Context {Dev : Type}.
Variable plat : Platform Dev.

(** The world [check_status] and [check_address] halt in. *)
Definition failed (text : string) (w : World Dev) : World Dev :=
  set_led (CYBSP_LED_STATE_ON bld) (print text w).

(** How a run of [main] ends: halted for good in a world, or blinking the
    LED over a world. *)
Inductive Ending : Type :=
| Halted (wf : World Dev)
| Blinking (wf : World Dev).

Definition Ends {R} (t : prog R) (w : World Dev) (e : Ending) : Prop :=
  match e with
  | Halted wf => Halts plat t w wf
  | Blinking wf => Idles plat t w wf
  end.

Definition final (e : Ending) : World Dev :=
  match e with
  | Halted wf => wf
  | Blinking wf => wf
  end.

(** The statements of [main] in order, each applied to the world the
    previous one left. *)
Definition main_course (w : World Dev) : Ending :=
  let '(result, w) := handle plat BspInit w in
  if (negb (NDEBUG bld) && negb (result =? CY_RSLT_SUCCESS))%bool then Halted w else
  let w := set_led (CYBSP_LED_STATE_OFF bld) w in
  let w := print (esc ++ "[2J" ++ esc ++ "[;H") w in
  let w := print ("*************** PSoC 6 MCU: External Flash Access in XIP Mode ***************"
                    ++ nl ++ nl) w in
  let '(result, w) := handle plat (QspiInit QSPI_BUS_FREQUENCY_HZ) w in
  if negb (0 =? result)
  then Halted (failed (failure_block "Serial Flash initialization failed" result) w) else
  let '(txBuffer, rxBuffer) :=
    init_buffers (uninit (txBuffer_junk bld) PACKET_SIZE) (uninit (rxBuffer_junk bld) PACKET_SIZE) in
  let '(sectorSize, w) := handle plat (QspiGetEraseSize 0) w in
  let extMemAddress := sectorSize in
  let '(total, w) := handle plat QspiGetSize w in
  let w := print (nl ++ "1. Total Flash Size: " ++ fmt_u total ++ " bytes." ++ nl) w in
  let w := print (nl ++ "1. Erasing " ++ fmt_u sectorSize ++ " bytes of memory." ++ nl) w in
  let '(result, w) := handle plat (QspiErase extMemAddress sectorSize) w in
  if negb (0 =? result)
  then Halted (failed (failure_block "Erasing memory failed" result) w) else
  let w := print (nl ++ "2. Reading after Erase. Ensure that the data read is 0xFF for each byte."
                    ++ nl) w in
  let '(result, rxBuffer, w) := handle plat (QspiRead extMemAddress PACKET_SIZE rxBuffer) w in
  if negb (0 =? result)
  then Halted (failed (failure_block "Reading memory failed" result) w) else
  let w := print (array_text "Received Data" rxBuffer PACKET_SIZE) w in
  let w := print (nl ++ "3. Writing data to memory." ++ nl) w in
  let '(result, w) := handle plat (QspiWrite extMemAddress PACKET_SIZE txBuffer) w in
  if negb (0 =? result)
  then Halted (failed (failure_block "Writing to memory failed" result) w) else
  let w := print (array_text "Written Data" txBuffer PACKET_SIZE) w in
  let w := print (nl ++ "4. Reading back for verification." ++ nl) w in
  let '(result, rxBuffer, w) := handle plat (QspiRead extMemAddress PACKET_SIZE rxBuffer) w in
  if negb (0 =? result)
  then Halted (failed (failure_block "Reading memory failed" result) w) else
  let w := print (array_text "Received Data" rxBuffer PACKET_SIZE) w in
  let result := u32 (memcmp txBuffer rxBuffer (Z.to_nat PACKET_SIZE)) in
  if negb (0 =? result)
  then Halted (failed (failure_block
         "Read data does not match with written data. Read/Write operation failed." result) w) else
  let w := print (nl ++ rule80 ++ nl) w in
  let w := print (nl ++ "SUCCESS: Read data matches with written data!" ++ nl) w in
  let w := print (nl ++ rule80 ++ nl) w in
  let w := print (nl ++ "5. Entering XIP Mode." ++ nl) w in
  let '(_, w) := handle plat (QspiEnableXip true) w in
  let addr := u32 (hi_word_addr bld) in
  if baseAddress bld >? addr
  then Halted (failed (placement_block "String not found in external memory." addr) w) else
  let w := print (nl ++ "String in the external memory at address: 0x" ++ fmt_lx addr) w in
  let w := print (nl ++ rule55 ++ nl ++ hi_word) w in
  let addr := u32 (print_from_external_memory_addr bld) in
  if baseAddress bld >? addr
  then Halted (failed (placement_block "Function not found in external memory." addr) w) else
  let w := print (nl ++ "Function call from external memory address: 0x" ++ fmt_lx addr) w in
  let w := print (nl ++ rule55) w in
  let w := print (nl ++ "Hello from the external function!" ++ nl) w in
  let w := print (nl ++ rule80 ++ nl) w in
  let w := print (nl ++ "SUCCESS: Data successfully accessed in XIP mode!" ++ nl) w in
  let w := print (nl ++ rule80 ++ nl) w in
  Blinking w.

End Course.

(** ** The whole of a run *)

(** The driver calls of a passing run, in order, for the sector size
    [sectorSize] and the device size [total] the driver reports, the statuses
    [s0] to [s4] of the init, erase, read, write and read-back calls, and the
    buffers [rx1] and [rx2] the two reads leave. *)
Definition selftest_sequence (sectorSize total s0 s1 s2 s3 s4 : Z)
           (rx1 rx2 : list byte) : list Call :=
  [CInit QSPI_BUS_FREQUENCY_HZ s0;
   CGetEraseSize 0 sectorSize;
   CGetSize total;
   CErase sectorSize sectorSize s1;
   CRead sectorSize PACKET_SIZE s2 rx1;
   CWrite sectorSize PACKET_SIZE pattern s3;
   CRead sectorSize PACKET_SIZE s4 rx2;
   CEnableXip true].

(** [main], started in [w0], halts for good with the LED lit and [text]
    the last thing on the console. *)
Definition halts_printing (bld : Build) {Dev : Type} (plat : Platform Dev)
           (w0 : World Dev) (text : string) : Prop :=
  exists wf,
    Halts plat (main bld) w0 wf /\
    led wf = CYBSP_LED_STATE_ON bld /\
    exists before, console wf = before ++ text.

(** After some steps, [t] started in [w] goes on as [u] started in [w']. *)
Definition Continues {Dev : Type} (plat : Platform Dev) {R}
           (t : prog R) (w : World Dev) (u : prog R) (w' : World Dev) : Prop :=
  exists c, forall n, run plat (c + n) t w = run plat n u w'.

(** [t], started in [w], goes on as [u] in the world the ending [e]
    blinks over; nothing is said of a run that halts. *)
Definition Blinks {Dev : Type} (plat : Platform Dev) {R}
           (t u : prog R) (w : World Dev) (e : @Ending Dev) : Prop :=
  match e with
  | Blinking wf => Continues plat t w u wf
  | Halted _ => True
  end.

(** * Reasoning about runs *)

Section Runs.

Context {Dev : Type}.
Variable plat : Platform Dev.

Lemma observe_bind {R U} (t : prog R) (k : R -> prog U) :
  observe (ITree.bind t k) =
  match observe t with
  | RetF r => observe (k r)
  | TauF t' => TauF (ITree.bind t' k)
  | VisF e h => VisF e (fun x => ITree.bind (h x) k)
  end.
Proof.
  change (observe (ITree.bind t k))
    with (observe (match observe t with
                   | RetF r => k r
                   | TauF t' => Tau (ITree.bind t' k)
                   | VisF e h => Vis e (fun x => ITree.bind (h x) k)
                   end)).
  destruct (observe t); reflexivity.
Qed.

Lemma run_unfold {R} (t : prog R) n w :
  run plat n t w =
  match observe t with
  | RetF r => Returned r w n
  | TauF t' =>
      match n with
      | O => Running w
      | S n => run plat n t' w
      end
  | VisF e k =>
      match n with
      | O => Running w
      | S n => let '(r, w') := handle plat e w in run plat n (k r) w'
      end
  end.
Proof. destruct n; reflexivity. Qed.

Lemma run_bind {R U} (t : prog R) (k : R -> prog U) :
  forall n w,
    run plat n (ITree.bind t k) w =
    match run plat n t w with
    | Returned r w' m => run plat m (k r) w'
    | Running w' => Running w'
    end.
Proof.
  intros n; revert t; induction n as [|n IH]; intros t w;
    rewrite (run_unfold (ITree.bind t k)), (run_unfold t), observe_bind;
    destruct (observe t) as [r|t'|X e h].
  - exact (eq_sym (run_unfold (k r) 0 w)).
  - reflexivity.
  - reflexivity.
  - exact (eq_sym (run_unfold (k r) (S n) w)).
  - apply IH.
  - destruct (handle plat e w) as [x w']. apply IH.
Qed.

Lemma run_ret {R} (r : R) n w : run plat n (Ret r) w = Returned r w n.
Proof. destruct n; reflexivity. Qed.

Lemma run_trigger {T} (e : hwE T) n w :
  run plat (S n) (ITree.trigger e) w =
  Returned (fst (handle plat e w)) (snd (handle plat e w)) n.
Proof.
  cbn. destruct (handle plat e w) as [x w']. apply run_ret.
Qed.

Lemma run_iter {I R} (body : I -> prog (I + R)) (i : I) n w :
  run plat n (ITree.iter body i) w =
  run plat n (ITree.bind (body i) (fun lr =>
                match lr with
                | inl l => Tau (ITree.iter body l)
                | inr r => Ret r
                end)) w.
Proof. destruct n; reflexivity. Qed.

Lemma run_forever {R U} (t : prog R) n w :
  run plat n (ITree.forever t : prog U) w =
  run plat n (ITree.bind t (fun _ => Tau (ITree.forever t))) w.
Proof. destruct n; reflexivity. Qed.

Lemma run_tau {R} (t : prog R) n w :
  run plat (S n) (Tau t) w = run plat n t w.
Proof. reflexivity. Qed.

(** More fuel does not change a result. *)
Lemma run_more {R} j : forall n (t : prog R) w r w' m,
  run plat n t w = Returned r w' m ->
  run plat (n + j) t w = Returned r w' (m + j).
Proof.
  induction n as [|n IH]; intros t w r w' m;
    do 2 rewrite (run_unfold t _ w); cbn [Nat.add].
  - destruct (observe t); intros H; inversion H; reflexivity.
  - destruct (observe t) as [x|t'|X e h].
    + intros H; inversion H; reflexivity.
    + apply IH.
    + destruct (handle plat e w) as [x w1]. apply IH.
Qed.

Lemma Returns_ret {R} (r : R) w : Returns plat (Ret r) w r w.
Proof. exists O. intros n. apply run_ret. Qed.

Lemma Returns_trigger {T} (e : hwE T) w :
  Returns plat (ITree.trigger e) w (fst (handle plat e w)) (snd (handle plat e w)).
Proof. exists 1%nat. intros n. apply run_trigger. Qed.

Lemma Returns_bind {R U} (t : prog R) (k : R -> prog U) w r w1 u w2 :
  Returns plat t w r w1 -> Returns plat (k r) w1 u w2 -> Returns plat (ITree.bind t k) w u w2.
Proof.
  intros [c1 H1] [c2 H2]. exists (c1 + c2)%nat. intros n.
  rewrite run_bind, <- Nat.add_assoc, H1. apply H2.
Qed.

Lemma Halts_bind {R U} (t : prog R) (k : R -> prog U) w r w1 wf :
  Returns plat t w r w1 -> Halts plat (k r) w1 wf -> Halts plat (ITree.bind t k) w wf.
Proof.
  intros [c1 H1] [c2 H2]. exists (c1 + c2)%nat. intros n Hn.
  replace n with (c1 + (n - c1))%nat by lia.
  rewrite run_bind, H1. apply H2. lia.
Qed.

Lemma Halts_bind_l {R U} (t : prog R) (k : R -> prog U) w wf :
  Halts plat t w wf -> Halts plat (ITree.bind t k) w wf.
Proof.
  intros [c H]. exists c. intros n Hn. rewrite run_bind, H by assumption.
  reflexivity.
Qed.

Lemma Idles_bind {R U} (t : prog R) (k : R -> prog U) w r w1 wf :
  Returns plat t w r w1 -> Idles plat (k r) w1 wf -> Idles plat (ITree.bind t k) w wf.
Proof.
  intros [c1 H1] [c2 H2]. exists (c1 + c2)%nat. intros n Hn.
  replace n with (c1 + (n - c1))%nat by lia.
  rewrite run_bind, H1. apply H2. lia.
Qed.

Lemma run_wait_forever {R} n w : run plat n (wait_forever : prog R) w = Running w.
Proof.
  induction n as [|n IH]; unfold wait_forever in *; rewrite run_forever, run_bind, run_ret.
  - reflexivity.
  - rewrite run_tau. exact IH.
Qed.

Lemma Halts_wait_forever {R} w : Halts plat (wait_forever : prog R) w w.
Proof. exists O. intros n _. apply run_wait_forever. Qed.

(** A program that halts or idles is running at every step. *)
Lemma never_returns {R} (t : prog R) w c :
  (forall n, (c <= n)%nat -> returned (run plat n t w) = false) ->
  forall n, returned (run plat n t w) = false.
Proof.
  intros H n. destruct (run plat n t w) as [r w' m|w'] eqn:E; [|reflexivity].
  apply (run_more c) in E. specialize (H (n + c)%nat ltac:(lia)).
  rewrite E in H. discriminate.
Qed.

Lemma Halts_never_returns {R} (t : prog R) w wf :
  Halts plat t w wf -> forall n, returned (run plat n t w) = false.
Proof.
  intros [c H]. apply never_returns with c. intros n Hn. rewrite H by assumption.
  reflexivity.
Qed.

Lemma Idles_never_returns {R} (t : prog R) w wf :
  Idles plat t w wf -> forall n, returned (run plat n t w) = false.
Proof.
  intros [c H]. apply never_returns with c. intros n Hn.
  destruct (H n Hn) as [l ->]. reflexivity.
Qed.

(** *** The record of calls along a run *)

Lemma grows_refl (w : World Dev) : grows w w.
Proof. exists []%list. symmetry. apply app_nil_r. Qed.

Lemma grows_trans (w1 w2 w3 : World Dev) : grows w1 w2 -> grows w2 w3 -> grows w1 w3.
Proof.
  intros [a Ha] [b Hb]. exists (a ++ b)%list. rewrite Hb, Ha. symmetry. apply app_assoc.
Qed.

Lemma grows_record c (d : Dev) w : grows w (record c d w).
Proof. exists [c]. reflexivity. Qed.

Lemma handle_grows {T} (e : hwE T) w : grows w (snd (handle plat e w)).
Proof.
  destruct e; cbn;
    repeat match goal with
           | |- context [let '(_, _) := ?x in _] => destruct x
           end; unfold grows; cbn;
    first [exists []%list; symmetry; apply app_nil_r | eexists; reflexivity].
Qed.

Lemma run_grows {R} : forall n (t : prog R) w, grows w (world_of (run plat n t w)).
Proof.
  induction n as [|n IH]; intros t w; rewrite run_unfold;
    destruct (observe t) as [r|t'|X e h]; cbn; try apply grows_refl.
  - apply IH.
  - pose proof (handle_grows e w) as G.
    destruct (handle plat e w) as [x w1]. cbn in G.
    eapply grows_trans; [exact G | apply IH].
Qed.

(** The worlds a run passes through form a chain. *)
Lemma run_chain {R} j : forall n (t : prog R) w,
  grows (world_of (run plat n t w)) (world_of (run plat (n + j) t w)).
Proof.
  induction n as [|n IH]; intros t w;
    do 2 rewrite (run_unfold t _ w); cbn [Nat.add].
  - destruct (observe t) as [r|t'|X e h]; cbn.
    + apply grows_refl.
    + destruct j; [apply grows_refl | apply run_grows].
    + destruct j; [apply grows_refl|].
      pose proof (handle_grows e w) as G.
      destruct (handle plat e w) as [x w1]. cbn in G.
      eapply grows_trans; [exact G | apply run_grows].
  - destruct (observe t) as [r|t'|X e h]; cbn.
    + apply grows_refl.
    + apply IH.
    + destruct (handle plat e w) as [x w1]. apply IH.
Qed.

(** Every world of a run that ends up halted in [wf] holds a prefix of the
    calls of [wf]. *)
Lemma Halts_grows {R} (t : prog R) w wf n :
  Halts plat t w wf -> grows (world_of (run plat n t w)) wf.
Proof.
  intros [c H]. pose proof (run_chain c n t w) as G.
  rewrite (H (n + c)%nat) in G by lia. exact G.
Qed.

Lemma Idles_grows {R} (t : prog R) w wf n :
  Idles plat t w wf -> grows (world_of (run plat n t w)) wf.
Proof.
  intros [c H]. pose proof (run_chain c n t w) as G.
  destruct (H (n + c)%nat ltac:(lia)) as [l E]. rewrite E in G. exact G.
Qed.

End Runs.

(** * The functions of [main.c] *)

Section Functions.

Variable bld : Build.
Context {Dev : Type}.
Variable plat : Platform Dev.

Lemma append_assoc (a b c : string) : (a ++ b) ++ c = a ++ b ++ c.
Proof. induction a as [|x a IH]; cbn; [reflexivity | now rewrite IH]. Qed.

Lemma append_nil_r (a : string) : a ++ "" = a.
Proof. induction a as [|x a IH]; cbn; [reflexivity | now rewrite IH]. Qed.

Lemma print_print (a b : string) (w : World Dev) :
  print b (print a w) = print (a ++ b) w.
Proof. unfold print; cbn. now rewrite append_assoc. Qed.

Lemma print_nil (w : World Dev) : print "" w = w.
Proof. destruct w; unfold print; cbn. now rewrite append_nil_r. Qed.

Lemma Returns_printf text (w : World Dev) :
  Returns plat (printf text) w tt (print text w).
Proof. apply (Returns_trigger plat (Printf text)). Qed.

Lemma Returns_seq {R U} (t : prog R) (u : prog U) w r w1 x w2 :
  Returns plat t w r w1 -> Returns plat u w1 x w2 ->
  Returns plat (t;; u) w x w2.
Proof. intros H1 H2. eapply Returns_bind; eassumption. Qed.

Lemma Returns_tau {R} (t : prog R) w r w' :
  Returns plat t w r w' -> Returns plat (Tau t) w r w'.
Proof.
  intros [c H]. exists (S c). intros n. cbn [Nat.add]. rewrite run_tau. apply H.
Qed.

Lemma Returns_iter_done {I R} (body : I -> prog (I + R)) i w r w' :
  Returns plat (body i) w (inr r) w' -> Returns plat (ITree.iter body i) w r w'.
Proof.
  intros [c H]. exists c. intros n. rewrite run_iter, run_bind, H. apply run_ret.
Qed.

Lemma Returns_iter_again {I R} (body : I -> prog (I + R)) i j w w1 r w2 :
  Returns plat (body i) w (inl j) w1 ->
  Returns plat (ITree.iter body j) w1 r w2 ->
  Returns plat (ITree.iter body i) w r w2.
Proof.
  intros H1 H2. apply Returns_tau in H2.
  destruct H1 as [c1 H1], H2 as [c2 H2]. exists (c1 + c2)%nat. intros n.
  rewrite run_iter, run_bind, <- Nat.add_assoc, H1. apply H2.
Qed.

(** *** [check_status] *)

Lemma check_status_passes message (w : World Dev) :
  Returns plat (check_status bld message 0) w tt w.
Proof. apply Returns_ret. Qed.

Lemma check_status_halts message status (w : World Dev) :
  status <> 0 ->
  Halts plat (check_status bld message status) w
        (failed bld (failure_block message status) w).
Proof.
  intros Hs. unfold check_status.
  destruct (Z.eqb_spec 0 status) as [E|_]; [congruence|]. cbn [negb].
  do 4 (eapply Halts_bind; [apply Returns_printf|]).
  eapply Halts_bind; [apply (Returns_trigger plat (GpioWrite _))|].
  cbn [handle fst snd]. unfold failed, failure_block.
  rewrite !print_print, !append_assoc.
  apply Halts_wait_forever.
Qed.

(** *** [check_address] *)

Lemma check_address_passes message addr (w : World Dev) :
  baseAddress bld <= addr ->
  Returns plat (check_address bld message addr) w tt w.
Proof.
  intros H. unfold check_address.
  destruct (Z.gtb_spec (baseAddress bld) addr); [lia|]. apply Returns_ret.
Qed.

Lemma check_address_halts message addr (w : World Dev) :
  addr < baseAddress bld ->
  Halts plat (check_address bld message addr) w
        (failed bld (placement_block message addr) w).
Proof.
  intros H. unfold check_address.
  destruct (Z.gtb_spec (baseAddress bld) addr); [|lia].
  do 4 (eapply Halts_bind; [apply Returns_printf|]).
  eapply Halts_bind; [apply (Returns_trigger plat (GpioWrite _))|].
  cbn [handle fst snd]. unfold failed, placement_block.
  rewrite !print_print, !append_assoc.
  apply Halts_wait_forever.
Qed.

(** *** [print_array] *)

Lemma fmt_byte (b : byte) : fmt_0X 2 (byte_to_Z b) = hex_pair b.
Proof. destruct b; reflexivity. Qed.

Lemma skipn_nth {A} (d : A) : forall i (l : list A),
  (i < List.length l)%nat -> skipn i l = nth i l d :: skipn (S i) l.
Proof.
  induction i as [|i IH]; intros [|x l] H; cbn in *; try lia.
  - reflexivity.
  - apply IH. lia.
Qed.

(** The loop of [print_array] from [index] on, [count] bytes before the
    end. *)
Lemma print_array_loop (buf : list byte) (size : nat) :
  (size <= List.length buf)%nat -> Z.of_nat size < 2 ^ 32 ->
  forall count index (w : World Dev),
    (index + count = size)%nat ->
    Returns plat
      (ITree.iter (fun index : Z =>
         if index <? Z.of_nat size then
           printf ("0x" ++ fmt_0X 2 (byte_to_Z (load buf index)) ++ " ");;
           (if 0 =? u32 (index + 1) mod NUM_BYTES_PER_LINE then printf nl else Ret tt);;
           Ret (inl (u32 (index + 1)))
         else Ret (inr tt)) (Z.of_nat index))
      w tt (print (hexdump index (firstn count (skipn index buf))) w).
Proof.
  intros Hlen Hmax.
  induction count as [|count IH]; intros index w Hsum.
  - apply Returns_iter_done.
    destruct (Z.ltb_spec (Z.of_nat index) (Z.of_nat size)); [lia|].
    cbn [firstn hexdump]. rewrite print_nil. apply Returns_ret.
  - assert (E : u32 (Z.of_nat index + 1) = Z.of_nat (S index)).
    { unfold u32. rewrite Z.mod_small; lia. }
    eapply Returns_iter_again.
    + destruct (Z.ltb_spec (Z.of_nat index) (Z.of_nat size)); [|lia].
      eapply Returns_seq; [apply Returns_printf|].
      eapply Returns_seq; [|apply Returns_ret].
      instantiate (1 := print (if (Z.of_nat index + 1) mod 16 =? 0 then nl else "") _).
      rewrite E. unfold NUM_BYTES_PER_LINE.
      replace (Z.of_nat (S index)) with (Z.of_nat index + 1) by lia.
      rewrite (Z.eqb_sym 0).
      destruct ((Z.of_nat index + 1) mod 16 =? 0).
      * apply Returns_printf.
      * rewrite print_nil. apply Returns_ret.
    + rewrite E.
      rewrite (@skipn_nth _ x00 index buf) by lia. cbn [firstn hexdump].
      unfold load. rewrite Nat2Z.id, fmt_byte.
      match goal with
      | |- context [print (?a ++ ?b ++ ?c ++ ?d ++ ?e) w] =>
          replace (a ++ b ++ c ++ d ++ e) with (((a ++ b ++ c) ++ d) ++ e)
            by (now rewrite !append_assoc)
      end.
      rewrite <- !print_print.
      apply IH. lia.
Qed.

Lemma print_array_returns message (buf : list byte) (size : Z) (w : World Dev) :
  0 <= size <= Z.of_nat (List.length buf) -> size < 2 ^ 32 ->
  Returns plat (print_array message buf size) w tt
          (print (array_text message buf size) w).
Proof.
  intros Hsize Hmax. unfold print_array, array_text.
  set (head := nl ++ message ++ " (" ++ fmt_u size ++ " bytes):" ++ nl).
  set (line := rule25 ++ nl).
  rewrite <- (print_print head), <- (print_print line).
  do 2 (eapply Returns_seq; [apply Returns_printf|]).
  pose proof (@print_array_loop buf (Z.to_nat size)) as L.
  rewrite Z2Nat.id in L by lia.
  specialize (L ltac:(lia) Hmax (Z.to_nat size) O).
  cbn [skipn] in L. apply L. reflexivity.
Qed.

(** *** Buffers *)

Lemma store_length : forall (a : list byte) i v, List.length (store a i v) = List.length a.
Proof.
  induction a as [|h t IH]; intros [|i] v; cbn; try reflexivity.
  now rewrite IH.
Qed.

Lemma deliver_length : forall data len (buf : list byte),
  List.length (deliver data len buf) = List.length buf.
Proof.
  induction data as [|d data IH]; intros [|len] [|b buf]; cbn; try reflexivity.
  now rewrite IH.
Qed.

Lemma init_buffers_length (tx rx : list byte) :
  List.length (fst (init_buffers tx rx)) = List.length tx /\
  List.length (snd (init_buffers tx rx)) = List.length rx.
Proof.
  unfold init_buffers. generalize (seq 0 (Z.to_nat PACKET_SIZE)) as indices.
  intros indices. revert tx rx.
  induction indices as [|i indices IH]; intros tx rx; cbn [fold_left fst snd].
  - split; reflexivity.
  - destruct (IH (store tx i (u8 (Z.land (Z.of_nat i) 255))) (store rx i x00)) as [H1 H2].
    rewrite H1, H2, !store_length. split; reflexivity.
Qed.

Lemma uninit_length junk n : List.length (uninit junk n) = Z.to_nat n.
Proof. unfold uninit. now rewrite length_map, length_seq. Qed.

Lemma handle_read_length addr len buf (w : World Dev) r buf' w' :
  handle plat (QspiRead addr len buf) w = (r, buf', w') ->
  List.length buf' = List.length buf.
Proof.
  cbn. destruct (qspi_read plat addr len (dev w)) as [[s data] d].
  intros H; inversion H; subst. apply deliver_length.
Qed.

(** *** [main] *)

Lemma Ends_bind {R U} (t : prog R) (k : R -> prog U) (w : World Dev) r w1 e :
  Returns plat t w r w1 -> Ends plat (k r) w1 e -> Ends plat (ITree.bind t k) w e.
Proof.
  destruct e; cbn; intros H1 H2; [eapply Halts_bind | eapply Idles_bind]; eassumption.
Qed.

Lemma Ends_halts {R U} (t : prog R) (k : R -> prog U) (w wf : World Dev) :
  Halts plat t w wf -> Ends plat (ITree.bind t k) w (Halted wf).
Proof. apply Halts_bind_l. Qed.

Lemma blink_idles {R} (w : World Dev) :
  Idles plat (ITree.forever (cyhal_gpio_toggle;;
                             cyhal_system_delay_ms LED_TOGGLE_DELAY_MSEC) : prog R) w w.
Proof.
  exists O. intros n _. revert w.
  induction n as [n IH] using lt_wf_ind. intros w.
  rewrite run_forever, run_bind, run_bind.
  destruct n as [|n].
  - exists (led w). destruct w; reflexivity.
  - unfold cyhal_gpio_toggle. rewrite run_trigger. cbn [handle fst snd].
    unfold cyhal_system_delay_ms.
    destruct n as [|n].
    + exists (negb (led w)). reflexivity.
    + rewrite run_trigger. cbn [handle fst snd].
      destruct n as [|n].
      * exists (negb (led w)). reflexivity.
      * rewrite run_tau. destruct (IH n ltac:(lia) (set_led (negb (led w)) w)) as [l E].
        unfold cyhal_gpio_toggle, cyhal_system_delay_ms in E.
        exists l. rewrite E. reflexivity.
Qed.

Lemma Returns_gpio_init level (w : World Dev) :
  Returns plat (cyhal_gpio_init level) w tt (set_led level w).
Proof. apply (Returns_trigger plat (GpioInit level)). Qed.

Lemma Returns_enable_irq (w : World Dev) : Returns plat __enable_irq w tt w.
Proof. apply (Returns_trigger plat EnableIrq). Qed.

Lemma Returns_retarget_io_init (w : World Dev) : Returns plat cy_retarget_io_init w tt w.
Proof. apply (Returns_trigger plat RetargetIoInit). Qed.

Lemma Returns_call {T} (e : hwE T) (w : World Dev) r w' :
  handle plat e w = (r, w') -> Returns plat (ITree.trigger e) w r w'.
Proof.
  intros H. pose proof (Returns_trigger plat e w) as G. rewrite H in G. exact G.
Qed.

Ltac step_printf := eapply Ends_bind; [apply Returns_printf|].

Ltac step_call e :=
  match goal with
  | |- context [handle plat e ?w0] =>
      let H := fresh "Hcall" in
      destruct (handle plat e w0) eqn:H;
      (eapply Ends_bind; [apply (Returns_call e), H|])
  end.

Ltac step_check result :=
  destruct (Z.eqb_spec 0 result) as [<-|?]; cbn [negb];
  [eapply Ends_bind; [apply check_status_passes|]
  |apply Ends_halts, check_status_halts; congruence].

Ltac step_array :=
  eapply Ends_bind;
  [apply print_array_returns; [unfold PACKET_SIZE in *; lia | reflexivity]|].

(** [main] ends the way [main_course] says. *)
Lemma main_run (w : World Dev) : Ends plat (main bld) w (main_course bld plat w).
Proof.
  unfold main, main_course.
  (* board bring-up *)
  step_call BspInit.
  unfold CY_ASSERT.
  destruct (NDEBUG bld), (_ =? CY_RSLT_SUCCESS); cbn [negb andb];
    try (apply Ends_halts, Halts_wait_forever);
    (eapply Ends_bind; [apply Returns_ret|]);
    (eapply Ends_bind; [apply Returns_enable_irq|]);
    (eapply Ends_bind; [apply Returns_retarget_io_init|]);
    (eapply Ends_bind; [apply Returns_gpio_init|]);
    do 2 step_printf.
  all: step_call (QspiInit QSPI_BUS_FREQUENCY_HZ).
  all: match goal with H : handle _ (QspiInit _) _ = (?r, _) |- _ => step_check r end.
  (* the transfer buffers *)
  all: pose proof (init_buffers_length (uninit (txBuffer_junk bld) PACKET_SIZE)
                                       (uninit (rxBuffer_junk bld) PACKET_SIZE)) as [Ltx Lrx].
  all: rewrite !uninit_length in Ltx, Lrx.
  all: destruct (init_buffers _ _) as [txBuffer rxBuffer]; cbn [fst snd] in Ltx, Lrx.
  (* erase *)
  all: step_call (QspiGetEraseSize 0).
  all: step_call QspiGetSize.
  all: do 2 step_printf.
  all: match goal with
       | |- context [handle plat (QspiErase ?a ?l) _] => step_call (QspiErase a l)
       end.
  all: match goal with H : handle _ (QspiErase _ _) _ = (?r, _) |- _ => step_check r end.
  (* read after erase *)
  all: step_printf.
  all: match goal with
       | |- context [handle plat (QspiRead ?a ?l ?b) _] => step_call (QspiRead a l b)
       end.
  all: match goal with
       | H : handle _ (QspiRead _ _ _) _ = (?p, _) |- _ =>
           destruct p as [r1 rxBuffer1];
           pose proof (handle_read_length _ _ _ _ H) as Lrx1; rewrite Lrx in Lrx1;
           clear Lrx; step_check r1
       end.
  all: step_array.
  (* write *)
  all: step_printf.
  all: match goal with
       | |- context [handle plat (QspiWrite ?a ?l ?b) _] => step_call (QspiWrite a l b)
       end.
  all: match goal with H : handle _ (QspiWrite _ _ _) _ = (?r, _) |- _ => step_check r end.
  all: step_array.
  (* read back and compare *)
  all: step_printf.
  all: match goal with
       | |- context [handle plat (QspiRead ?a ?l ?b) _] => step_call (QspiRead a l b)
       end.
  all: match goal with
       | H : handle _ (QspiRead _ _ _) _ = (?p, _), L : List.length ?b = _ |- _ =>
           is_var p; destruct p as [r2 rxBuffer2];
           pose proof (handle_read_length _ _ _ _ H) as Lrx2; rewrite L in Lrx2;
           step_check r2
       end.
  all: step_array.
  all: match goal with
       | |- context [check_status _ _ ?r] =>
           destruct (Z.eqb_spec 0 r) as [<-|?]; cbn [negb];
           [eapply Ends_bind; [apply check_status_passes|]
           |apply Ends_halts, check_status_halts; congruence]
       end.
  all: do 4 step_printf.
  (* XIP *)
  all: step_call (QspiEnableXip true).
  all: destruct (Z.gtb_spec (baseAddress bld) (u32 (hi_word_addr bld)));
       [apply Ends_halts, check_address_halts; lia
       |eapply Ends_bind; [apply check_address_passes; lia|]].
  all: do 2 step_printf.
  all: destruct (Z.gtb_spec (baseAddress bld) (u32 (print_from_external_memory_addr bld)));
       [apply Ends_halts, check_address_halts; lia
       |eapply Ends_bind; [apply check_address_passes; lia|]].
  all: do 2 step_printf.
  all: unfold print_from_external_memory.
  all: do 4 step_printf.
  all: apply blink_idles.
Qed.

End Functions.

(** * The checks and the dump *)

Section Checks.

Variable bld : Build.
Context {Dev : Type}.
Variable plat : Platform Dev.

(** C10.  With a zero status [check_status] does nothing: it makes no
    call at all, so nothing is printed and the LED is not written, and it
    returns at once in the world it was called in. *)
Theorem check_status_zero_is_noop (message : string) (w : World Dev) (n : nat) :
  run plat n (check_status bld message 0) w = Returned tt w n.
Proof. unfold check_status. cbn [Z.eqb negb]. apply run_ret. Qed.

(** C3.  [check_address] accepts the base address of the window itself,
    and it halts in the failure state, with the placement block printed and
    the LED lit, exactly when the address is strictly below the base address;
    otherwise it returns in the world it was called in. *)
Theorem check_address_lower_bound_inclusive (message : string) (addr : Z) (w : World Dev) :
  (forall n, run plat n (check_address bld message (baseAddress bld)) w = Returned tt w n) /\
  (Halts plat (check_address bld message addr) w
         (failed bld (placement_block message addr) w) <->
   addr < baseAddress bld) /\
  ((forall n, run plat n (check_address bld message addr) w = Returned tt w n) <->
   baseAddress bld <= addr).
Proof.
  split; [|split; split].
  - intros n. unfold check_address.
    destruct (Z.gtb_spec (baseAddress bld) (baseAddress bld)); [lia|]. apply run_ret.
  - intros H. destruct (Z.lt_ge_cases addr (baseAddress bld)) as [?|Hge]; [assumption|].
    apply Halts_never_returns with (n := O) in H.
    unfold check_address in H.
    destruct (Z.gtb_spec (baseAddress bld) addr); [lia|].
    rewrite run_ret in H. discriminate.
  - apply check_address_halts.
  - intros H. destruct (Z.lt_ge_cases addr (baseAddress bld)) as [Hlt|?]; [|assumption].
    apply (check_address_halts bld plat message w) in Hlt.
    apply Halts_never_returns with (n := O) in Hlt.
    rewrite H in Hlt. discriminate.
  - intros H n. unfold check_address.
    destruct (Z.gtb_spec (baseAddress bld) addr); [lia|]. apply run_ret.
Qed.

(** C9.  [check_address] compares with the base address only: every
    address at or above it passes, the check returning at once in the world
    it was called in without any call (so without asking the driver for the
    size of the device).  This includes the addresses past the end of the
    window, whatever the size [size] of the device: every 32-bit address
    [addr + size] passes as well. *)
Theorem check_address_has_no_upper_bound (message : string) (addr : Z) (w : World Dev) :
  baseAddress bld <= addr ->
  (forall n, run plat n (check_address bld message addr) w = Returned tt w n) /\
  (forall size n, 0 <= size -> addr + size < 2 ^ 32 ->
     run plat n (check_address bld message (u32 (addr + size))) w = Returned tt w n).
Proof.
  intros H. split; [intros n | intros size n Hsize Hmax]; unfold check_address.
  - destruct (Z.gtb_spec (baseAddress bld) addr); [lia|]. apply run_ret.
  - destruct (Z.gtb_spec (baseAddress bld) (u32 (addr + size))) as [Hlt|Hge];
      [|apply run_ret].
    exfalso. unfold u32 in Hlt.
    assert (P : 0 < 2 ^ 32) by reflexivity.
    destruct (Z.lt_ge_cases (addr + size) 0) as [Hneg|Hpos].
    + pose proof (Z.mod_pos_bound (addr + size) (2 ^ 32) P) as B. lia.
    + rewrite Z.mod_small in Hlt by (split; assumption). lia.
Qed.

(** C8.  [print_array] prints, after its two heading lines, the first
    [size] bytes of the buffer in index order, each as [0x], its two
    upper-case hexadecimal digits and a space, with a newline after every
    16th byte, and returns. *)
Theorem print_array_dumps_hex (message : string) (buf : list byte) (size : Z) (w : World Dev) :
  0 <= size <= Z.of_nat (List.length buf) -> size < 2 ^ 32 ->
  exists steps, forall n,
    run plat (steps + n) (print_array message buf size) w =
    Returned tt (mkWorld (dev w)
                         (console w ++
                          (nl ++ message ++ " (" ++ fmt_u size ++ " bytes):" ++ nl) ++
                          (rule25 ++ nl) ++
                          hexdump 0 (firstn (Z.to_nat size) buf))
                         (led w) (calls w)) n.
Proof.
  intros Hsize Hmax. exact (@print_array_returns _ plat message buf size w Hsize Hmax).
Qed.

End Checks.

(** * Runs of [main] *)

Section Main.

Variable bld : Build.
Context {Dev : Type}.
Variable plat : Platform Dev.

Lemma init_buffers_eq :
  init_buffers (uninit (txBuffer_junk bld) PACKET_SIZE) (uninit (rxBuffer_junk bld) PACKET_SIZE)
  = (pattern, repeat x00 64).
Proof. reflexivity. Qed.

Lemma pattern_length : List.length pattern = 64%nat.
Proof. reflexivity. Qed.

Lemma memcmp_bound : forall n s1 s2, -255 <= memcmp s1 s2 n <= 255.
Proof.
  induction n as [|n IH]; intros [|b1 s1] [|b2 s2]; cbn; try lia.
  destruct (Byte.eqb b1 b2); [apply IH|].
  unfold byte_to_Z. pose proof (Byte.to_N_bounded b1). pose proof (Byte.to_N_bounded b2). lia.
Qed.

Lemma byte_to_Z_inj a b : byte_to_Z a = byte_to_Z b -> a = b.
Proof.
  unfold byte_to_Z. intros H. apply N2Z.inj in H.
  assert (Some a = Some b) as E; [|now inversion E].
  rewrite <- (Byte.of_to_N a), <- (Byte.of_to_N b). now f_equal.
Qed.

Lemma memcmp_zero : forall n s1 s2,
  List.length s1 = n -> List.length s2 = n -> (memcmp s1 s2 n = 0 <-> s1 = s2).
Proof.
  induction n as [|n IH]; intros [|b1 s1] [|b2 s2] H1 H2; cbn in *; try discriminate.
  - tauto.
  - destruct (Byte.eqb b1 b2) eqn:E.
    + apply Byte.byte_dec_bl in E. subst b2.
      rewrite IH by lia. split; [intros ->; reflexivity | intros H; now inversion H].
    + split.
      * intros H. assert (b1 = b2) by (apply byte_to_Z_inj; lia). subst.
        rewrite (Byte.byte_dec_lb eq_refl) in E. discriminate.
      * intros H. inversion H; subst.
        rewrite (Byte.byte_dec_lb eq_refl) in E. discriminate.
Qed.

Lemma compare_zero (tx rx : list byte) :
  List.length tx = 64%nat -> List.length rx = 64%nat ->
  (0 = u32 (memcmp tx rx (Z.to_nat PACKET_SIZE)) <-> rx = tx).
Proof.
  intros H1 H2. pose proof (memcmp_bound (Z.to_nat PACKET_SIZE) tx rx) as B.
  pose proof (memcmp_zero (n := Z.to_nat PACKET_SIZE) tx rx H1 H2) as Z0.
  unfold u32. split.
  - intros H. symmetry. apply Z0.
    destruct (Z.eq_dec (memcmp tx rx (Z.to_nat PACKET_SIZE)) 0) as [|N]; [assumption|].
    exfalso. destruct (Z.lt_ge_cases (memcmp tx rx (Z.to_nat PACKET_SIZE)) 0).
    + rewrite <- (Z.mod_add _ 1) in H by lia. rewrite Z.mod_small in H; lia.
    + rewrite Z.mod_small in H; lia.
  - intros ->. destruct Z0 as [_ Z0]. rewrite Z0 by reflexivity. reflexivity.
Qed.

(** Case analysis on the course of [main], one statement at a time. *)
Ltac innermost x :=
  lazymatch x with
  | match ?y with _ => _ end => innermost y
  | _ => x
  end.

Ltac course_next E :=
  cbn [handle dev console led calls print set_led set_dev record boot app] in E;
  lazymatch type of E with
  | _ = match ?x with _ => _ end =>
      let y := innermost x in
      lazymatch y with
      | negb (0 =? ?r) => destruct (Z.eqb_spec 0 r); cbn [negb] in E
      | (?a >? ?b) => destruct (Z.gtb_spec a b)
      | _ => destruct y eqn:?
      end
  end.

Ltac world_simpl :=
  cbn [final calls led console dev failed print record set_led set_dev boot app].

Tactic Notation "world_simpl" "in" hyp(H) :=
  cbn [final calls led console dev failed print record set_led set_dev boot app] in H.

Ltac course_split E :=
  unfold main_course in E; rewrite init_buffers_eq in E; repeat course_next E;
  cbn [handle dev console led calls print set_led set_dev record boot app failed] in E.

Lemma readback_length (l0 l1 : list byte) :
  List.length (deliver l1 (Z.to_nat PACKET_SIZE)
                 (deliver l0 (Z.to_nat PACKET_SIZE) (repeat x00 64))) = 64%nat.
Proof. now rewrite !deliver_length, repeat_length. Qed.

(** A run that halts in [check_status] shows the failure state. *)
Ltac shows_failure :=
  lazymatch goal with
  | |- context [Halted (failed _ (failure_block ?m ?c) ?w)] =>
      intros _; eexists _, m, c; split; [reflexivity|];
      split; [congruence|split; [reflexivity | split; [exists (console w); reflexivity|]]];
      let x := fresh "x" in
      let st := fresh "st" in
      let Hin := fresh "Hin" in
      let Hst := fresh "Hst" in
      let Hne := fresh "Hne" in
      intros x st Hin Hst Hne; world_simpl in Hin; cbn [In] in Hin;
      repeat (destruct Hin as [<-|Hin]); try contradiction;
      cbn [transfer_status] in Hst; try discriminate; inversion Hst; subst;
      congruence
  end.

(** On the other paths no transfer failed and the data read back is the
    data written. *)
Ltac no_failure :=
  let c := fresh "c" in
  let st := fresh "st" in
  let Hin := fresh "Hin" in
  let Hst := fresh "Hst" in
  let Hne := fresh "Hne" in
  let Hw := fresh "Hw" in
  intros [(c & st & Hin & Hst & Hne) | (tx & a & n & st & rx & Hw & Hin & Hne)]; exfalso;
  [ cbn [In] in Hin; repeat (destruct Hin as [<-|Hin]); try contradiction;
    cbn [transfer_status] in Hst; try discriminate; inversion Hst; subst; congruence
  | cbn [written] in Hw; try discriminate; inversion Hw; subst;
    cbn [after_write In] in Hin; repeat (destruct Hin as [Hin|Hin]);
    try contradiction; try discriminate; inversion Hin; subst;
    apply Hne; symmetry;
    match goal with
    | E : 0 = u32 (memcmp _ _ _) |- _ =>
        apply compare_zero in E; [symmetry; exact E | apply pattern_length | apply readback_length]
    end ].

Lemma course_failure (d : Dev) (l : bool) e :
  e = main_course bld plat (boot d l) ->
  transfer_failed (calls (final e)) \/ readback_mismatch (calls (final e)) ->
  exists wf message code,
    e = Halted wf /\ code <> 0 /\
    led wf = CYBSP_LED_STATE_ON bld /\
    (exists before, console wf = before ++ failure_block message code) /\
    (forall c status,
       In c (calls wf) -> transfer_status c = Some status -> status <> 0 -> code = status).
Proof.
  intros E. course_split E; subst e; world_simpl; first [shows_failure | no_failure].
Qed.

(** *** From the worlds of a run to the world it ends in *)

Lemma main_ends (w : World Dev) :
  exists steps, forall n, (steps <= n)%nat ->
    exists level, run plat n (main bld) w =
                  Running (set_led level (final (main_course bld plat w))).
Proof.
  pose proof (main_run bld plat w) as H.
  destruct (main_course bld plat w) as [wf|wf]; cbn [Ends final] in *.
  - destruct H as [c H]. exists c. intros n Hn. exists (led wf).
    rewrite (H n Hn). destruct wf; reflexivity.
  - exact H.
Qed.

Lemma main_never_returns (w : World Dev) n :
  returned (run plat n (main bld) w) = false.
Proof.
  destruct (main_ends w) as [c H]. apply never_returns with c.
  intros m Hm. destruct (H m Hm) as [lv ->]. reflexivity.
Qed.

Lemma main_prefix (w0 w : World Dev) n :
  run plat n (main bld) w0 = Running w ->
  exists cs, calls (final (main_course bld plat w0)) = (calls w ++ cs)%list.
Proof.
  intros E. destruct (main_ends w0) as [c H].
  pose proof (run_chain plat c n (main bld) w0) as G.
  destruct (H (n + c)%nat ltac:(lia)) as [lv E2]. rewrite E, E2 in G. exact G.
Qed.

Lemma main_halts (w0 wf : World Dev) :
  main_course bld plat w0 = Halted wf -> Halts plat (main bld) w0 wf.
Proof. intros E. pose proof (main_run bld plat w0) as H. rewrite E in H. exact H. Qed.

Lemma written_app cs cs' tx : written cs = Some tx -> written (cs ++ cs')%list = Some tx.
Proof.
  induction cs as [|c cs IH]; cbn; [discriminate|].
  destruct c; auto.
Qed.

Lemma after_write_app cs cs' c :
  In c (after_write cs) -> In c (after_write (cs ++ cs')%list).
Proof.
  induction cs as [|x cs IH]; cbn; [contradiction|].
  destruct x; auto. intros H. apply in_or_app. now left.
Qed.

Lemma before_write_app cs cs' c :
  In c (before_write cs) -> In c (before_write (cs ++ cs')%list).
Proof.
  induction cs as [|x cs IH]; cbn; [contradiction|].
  destruct x; cbn; try (intros [H|H]; [now left | right; auto]). contradiction.
Qed.

Lemma transfer_failed_app cs cs' : transfer_failed cs -> transfer_failed (cs ++ cs')%list.
Proof.
  intros (c & st & Hin & H). exists c, st. split; [apply in_or_app; now left | exact H].
Qed.

Lemma readback_mismatch_app cs cs' :
  readback_mismatch cs -> readback_mismatch (cs ++ cs')%list.
Proof.
  intros (tx & a & n & st & rx & Hw & Hin & Hne). exists tx, a, n, st, rx.
  split; [now apply written_app | split; [now apply after_write_app | exact Hne]].
Qed.

(** C1.  In every run of [main]: once an erase, read or write call has
    returned a nonzero status, or the buffer read back after the write
    differs from the data written, the program ends in the failure state.  It
    has printed the failure block with a message and the nonzero error code
    (the status of the failing call), the LED is at its lit level, and from
    some step on the program sits in that world for good; it never returns. *)
Theorem selftest_failure_is_terminal (d : Dev) (l : bool) (n : nat) (w : World Dev) :
  run plat n (main bld) (boot d l) = Running w ->
  transfer_failed (calls w) \/ readback_mismatch (calls w) ->
  exists wf message code,
    (exists steps, forall m, (steps <= m)%nat ->
       run plat m (main bld) (boot d l) = Running wf) /\
    (forall m, returned (run plat m (main bld) (boot d l)) = false) /\
    code <> 0 /\
    led wf = CYBSP_LED_STATE_ON bld /\
    (exists before, console wf = before ++ failure_block message code) /\
    (forall c status,
       In c (calls w) -> transfer_status c = Some status -> status <> 0 -> code = status).
Proof.
  intros Hrun Hfail.
  pose proof Hrun as Hcs. apply main_prefix in Hcs. destruct Hcs as [cs Hcs].
  destruct (@course_failure d l _ eq_refl) as (wf & message & code & E & Hc & Hl & Hp & Hs).
  { rewrite Hcs. destruct Hfail; [left; now apply transfer_failed_app
                                 |right; now apply readback_mismatch_app]. }
  exists wf, message, code.
  split; [apply main_halts; exact E|].
  split; [intros m; apply main_never_returns|].
  repeat split; try assumption.
  intros c status Hin. apply Hs. rewrite E in Hcs. cbn [final] in Hcs.
  rewrite Hcs. apply in_or_app. now left.
Qed.

Lemma readback_failed_app cs cs' : readback_failed cs -> readback_failed (cs ++ cs')%list.
Proof.
  intros (a & n & st & rx & Hin & Hne). exists a, n, st, rx.
  split; [now apply after_write_app | exact Hne].
Qed.

Lemma course_readback_failed (d : Dev) (l : bool) e :
  e = main_course bld plat (boot d l) ->
  readback_failed (calls (final e)) ->
  exists wf,
    e = Halted wf /\ led wf = CYBSP_LED_STATE_ON bld /\
    forall enable, ~ In (CEnableXip enable) (calls wf).
Proof.
  intros E. course_split E; subst e; world_simpl;
    intros (xa & xlen & xst & xrx & Hin & Hne); cbn [after_write In] in Hin;
    repeat (destruct Hin as [Hin|Hin]); try contradiction; try discriminate;
    inversion Hin; subst; try congruence.
  eexists; split; [reflexivity|]. split; [reflexivity|].
  intros enable H. world_simpl in H. cbn [In] in H.
  repeat (destruct H as [H|H]); try contradiction; discriminate.
Qed.

(** C4.  In every run of [main] in which the read after the write
    reports a nonzero status, the program halts for good in a world with the
    LED at its lit level, and no world of the run records a call that enables
    XIP.  More generally nothing that follows a failing check is ever run:
    whatever program [k] comes after [check_status] with a nonzero status, or
    after [check_address] with an address below the window, the run is at
    every step where the check alone would be. *)
Theorem failure_halts_forward_progress (d : Dev) (l : bool) (n : nat) (w : World Dev) :
  run plat n (main bld) (boot d l) = Running w ->
  readback_failed (calls w) ->
  (exists wf,
     (exists steps, forall m, (steps <= m)%nat ->
        run plat m (main bld) (boot d l) = Running wf) /\
     led wf = CYBSP_LED_STATE_ON bld) /\
  (forall m w' enable,
     run plat m (main bld) (boot d l) = Running w' -> ~ In (CEnableXip enable) (calls w')) /\
  (forall R (k : unit -> prog R) message status w0 m,
     status <> 0 ->
     run plat m (ITree.bind (check_status bld message status) k) w0 =
     Running (world_of (run plat m (check_status bld message status) w0))) /\
  (forall R (k : unit -> prog R) message addr w0 m,
     addr < baseAddress bld ->
     run plat m (ITree.bind (check_address bld message addr) k) w0 =
     Running (world_of (run plat m (check_address bld message addr) w0))).
Proof.
  intros Hrun Hfail.
  pose proof Hrun as Hcs. apply main_prefix in Hcs. destruct Hcs as [cs Hcs].
  destruct (@course_readback_failed d l _ eq_refl) as (wf & E & Hl & Hx).
  { rewrite Hcs. now apply readback_failed_app. }
  split; [|split; [|split]].
  - exists wf. split; [apply main_halts; exact E | exact Hl].
  - intros m w' enable Hm Hin. apply main_prefix in Hm. destruct Hm as [cs' Hm].
    rewrite E in Hm. cbn [final] in Hm. apply (Hx enable). rewrite Hm.
    apply in_or_app. now left.
  - intros R k message status w0 m Hs. rewrite run_bind.
    pose proof (Halts_never_returns (check_status_halts bld plat message w0 Hs) m) as N.
    destruct (run plat m (check_status bld message status) w0); [discriminate|reflexivity].
  - intros R k message addr w0 m Ha. rewrite run_bind.
    pose proof (Halts_never_returns (check_address_halts bld plat message w0 Ha) m) as N.
    destruct (run plat m (check_address bld message addr) w0); [discriminate|reflexivity].
Qed.

(** *** The target address *)

(** Walk a prefix [pre] of a known record of calls, one call at a time. *)
Ltac walk_prefix pre Hcs Hin tac :=
  repeat (destruct pre as [|? pre];
          [contradiction Hin|];
          cbn [app] in Hcs;
          first [ discriminate Hcs
                | injection Hcs as ? Hcs; subst;
                  destruct Hin as [<-|Hin]; [tac|] ]).

Lemma course_target (d : Dev) (l : bool) e :
  e = main_course bld plat (boot d l) ->
  forall pre cs, calls (final e) = (pre ++ cs)%list ->
  forall c addr, In c pre -> transfer_addr c = Some addr ->
  exists sectorSize,
    In (CGetEraseSize 0 sectorSize) pre /\ addr = sectorSize /\
    (forall a len status, c = CErase a len status -> len = sectorSize).
Proof.
  intros E. course_split E; subst e; world_simpl;
    intros pre cs Hcs c addr Hin Ha; symmetry in Hcs;
    walk_prefix pre Hcs Hin
      ltac:(cbn [transfer_addr] in Ha;
            first [discriminate Ha
                  | injection Ha as <-; eexists; split; [cbn [In]; tauto|];
                    split; [reflexivity|];
                    let H := fresh in
                    intros ? ? ? H;
                    first [discriminate H | injection H as _ <- _; reflexivity]]).
Qed.

(** C5.  In every run of [main], the flash address of every erase, read
    and write call is the erase-sector size the driver reported for address
    zero (a call the record shows before it): one sector size, so the start
    of the second sector, a multiple of the sector size, and not zero unless
    the driver reports a sector size of zero.  The erase call erases that
    many bytes. *)
Theorem target_is_second_sector (d : Dev) (l : bool) (n : nat) (w : World Dev)
        (c : Call) (addr : Z) :
  run plat n (main bld) (boot d l) = Running w ->
  In c (calls w) -> transfer_addr c = Some addr ->
  exists sectorSize,
    In (CGetEraseSize 0 sectorSize) (calls w) /\
    addr = 1 * sectorSize /\
    (sectorSize | addr) /\
    (sectorSize <> 0 -> addr <> 0) /\
    (forall a len status, c = CErase a len status -> len = sectorSize).
Proof.
  intros Hrun Hin Ha.
  apply main_prefix in Hrun. destruct Hrun as [cs Hcs].
  destruct (@course_target d l _ eq_refl _ _ Hcs c addr Hin Ha) as (S0 & H1 & H2 & H3).
  exists S0. subst addr.
  split; [exact H1|]. split; [lia|]. split; [exists 1; lia|].
  split; [auto | exact H3].
Qed.

(** *** The read after the erase *)

Lemma shows_here (a s : string) : shows (a ++ s) s.
Proof. exists a, "". now rewrite append_nil_r. Qed.

Lemma shows_left (a b s : string) : shows a s -> shows (a ++ b) s.
Proof.
  intros (x & y & ->). exists x, (y ++ b). now rewrite !append_assoc.
Qed.

Ltac find_dump :=
  repeat first
    [ lazymatch goal with
      | |- shows (_ ++ array_text _ _ _) (array_text _ _ _) => apply shows_here
      end
    | apply shows_left ].

Lemma course_read_after_erase (d : Dev) (l : bool) e :
  e = main_course bld plat (boot d l) ->
  forall addr len status rx,
    In (CRead addr len status rx) (before_write (calls (final e))) ->
    (status <> 0 ->
     exists wf,
       e = Halted wf /\ led wf = CYBSP_LED_STATE_ON bld /\
       (exists before, console wf = before ++ failure_block "Reading memory failed" status) /\
       written (calls wf) = None) /\
    (status = 0 ->
     written (calls (final e)) = Some pattern /\
     shows (console (final e)) (array_text "Received Data" rx PACKET_SIZE)).
Proof.
  intros E. course_split E; subst e; world_simpl;
    intros xaddr xlen xstatus xrx Hin; cbn [before_write In] in Hin;
    repeat (destruct Hin as [Hin|Hin]); try contradiction; try discriminate;
    inversion Hin; subst; (split; intros Hst; [try congruence | try congruence]).
  all: try (split; [reflexivity | find_dump]).
  eexists. split; [reflexivity|]. split; [reflexivity|].
  split; [eexists; reflexivity | reflexivity].
Qed.

(** C7.  In every run of [main], for the read that follows the erase and
    whatever bytes [rx] it left in the buffer: if its status is nonzero the
    program halts in the failure state, with the block for a failed read and
    that status printed and the LED lit, and never writes; if its status is
    zero the run goes on to the write of the pattern, and the bytes read are
    on the console as the dump of the buffer.  The bytes have no part in the
    choice. *)
Theorem read_after_erase_checks_status_only (d : Dev) (l : bool) (n : nat) (w : World Dev)
        (addr len status : Z) (rx : list byte) :
  run plat n (main bld) (boot d l) = Running w ->
  In (CRead addr len status rx) (before_write (calls w)) ->
  (status <> 0 ->
   exists wf,
     (exists steps, forall m, (steps <= m)%nat ->
        run plat m (main bld) (boot d l) = Running wf) /\
     led wf = CYBSP_LED_STATE_ON bld /\
     (exists before, console wf = before ++ failure_block "Reading memory failed" status) /\
     written (calls wf) = None) /\
  (status = 0 ->
   exists m w',
     run plat m (main bld) (boot d l) = Running w' /\
     written (calls w') = Some pattern /\
     shows (console w') (array_text "Received Data" rx PACKET_SIZE)).
Proof.
  intros Hrun Hin.
  apply main_prefix in Hrun. destruct Hrun as [cs Hcs].
  apply (before_write_app _ cs) in Hin. rewrite <- Hcs in Hin.
  destruct (@course_read_after_erase d l _ eq_refl _ _ _ _ Hin) as [Hbad Hgood].
  split.
  - intros Hst. destruct (Hbad Hst) as (wf & E & Hl & Hp & Hw).
    exists wf. split; [apply main_halts; exact E|]. auto.
  - intros Hst. destruct (Hgood Hst) as [Hw Hs].
    destruct (main_ends (boot d l)) as [c H]. destruct (H c (Nat.le_refl c)) as [lv Hc].
    exists c, (set_led lv (final (main_course bld plat (boot d l)))).
    split; [exact Hc|]. split; [exact Hw | exact Hs].
Qed.

(** *** The pattern *)

Lemma course_written (d : Dev) (l : bool) e :
  e = main_course bld plat (boot d l) ->
  forall addr len buf status,
    In (CWrite addr len buf status) (calls (final e)) -> buf = pattern.
Proof.
  intros E. course_split E; subst e; world_simpl;
    intros xaddr xlen xbuf xstatus Hin; cbn [In] in Hin;
    repeat (destruct Hin as [Hin|Hin]); try contradiction; try discriminate;
    inversion Hin; reflexivity.
Qed.

(** C2.  Whatever the stack held where the buffers are declared, after
    the initialisation loop the transmit buffer has 64 bytes and its byte [i]
    is [i mod 256] for every [i] from 0 to 63; this buffer is the data of
    every write call of every run of [main]. *)
Theorem tx_pattern_seeded (i : Z) :
  0 <= i < PACKET_SIZE ->
  let txBuffer :=
    fst (init_buffers (uninit (txBuffer_junk bld) PACKET_SIZE)
                      (uninit (rxBuffer_junk bld) PACKET_SIZE)) in
  List.length txBuffer = 64%nat /\
  byte_to_Z (load txBuffer i) = i mod 256 /\
  (forall d l n w addr len buf status,
     run plat n (main bld) (boot d l) = Running w ->
     In (CWrite addr len buf status) (calls w) -> buf = txBuffer).
Proof.
  intros Hi. cbv zeta. rewrite init_buffers_eq. cbn [fst].
  split; [reflexivity|]. split.
  - unfold PACKET_SIZE in Hi. replace i with (Z.of_nat (Z.to_nat i)) by lia.
    assert (Hn : (Z.to_nat i < 64)%nat) by lia. revert Hn.
    generalize (Z.to_nat i) as k. clear i Hi. intros k Hk.
    unfold load. rewrite Nat2Z.id.
    do 64 (destruct k as [|k]; [reflexivity|]). lia.
  - intros d l n w addr len buf status Hrun Hin.
    apply main_prefix in Hrun. destruct Hrun as [cs Hcs].
    apply (@course_written d l _ eq_refl addr len buf status).
    rewrite Hcs. apply in_or_app. now left.
Qed.

(** *** The content of the flash *)

Section Content.

Variable cells : Dev -> Z -> byte.
Variable sector : Z.
Hypothesis contract : FlashContract plat cells sector.

Lemma contract_chain d z d0 z0 d1 z1 d2 z2 l0 d3 z3 d4 z4 l1 d5 hz :
  bsp_init plat d = (z, d0) ->
  qspi_init plat hz d0 = (z0, d1) ->
  qspi_erase plat (u32 (qspi_get_erase_size plat 0 d1))
             (u32 (qspi_get_erase_size plat 0 d1)) d1 = (z1, d2) ->
  0 = u32 z1 ->
  qspi_read plat (u32 (qspi_get_erase_size plat 0 d1)) PACKET_SIZE d2 = (z2, l0, d3) ->
  qspi_write plat (u32 (qspi_get_erase_size plat 0 d1)) PACKET_SIZE pattern d3 = (z3, d4) ->
  0 = u32 z3 ->
  qspi_read plat (u32 (qspi_get_erase_size plat 0 d1)) PACKET_SIZE d4 = (z4, l1, d5) ->
  forall a, cells d5 a = after_selftest sector (cells d) a.
Proof.
  rewrite (fc_sector contract d1).
  intros Hbsp Hinit Herase E1 Hread1 Hwrite E3 Hread2 a.
  pose proof (fc_bsp_init contract d a) as B. rewrite Hbsp in B. cbn [snd] in B.
  pose proof (fc_init contract hz d0 a) as I. rewrite Hinit in I. cbn [snd] in I.
  pose proof (fc_erase contract sector sector d1 a) as Er.
  rewrite Herase in Er. cbn [fst snd] in Er. specialize (Er (eq_sym E1)).
  pose proof (fc_read contract sector PACKET_SIZE d2 a) as R1.
  rewrite Hread1 in R1. cbn [snd] in R1.
  pose proof (fc_write contract sector PACKET_SIZE pattern d3 a) as Wr.
  rewrite Hwrite in Wr. cbn [fst snd] in Wr. destruct (Wr (eq_sym E3)) as [Win Wout].
  pose proof (fc_read contract sector PACKET_SIZE d4 a) as R2.
  rewrite Hread2 in R2. cbn [snd] in R2.
  pose proof (fc_packet_fits contract) as Fit.
  rewrite R2. unfold after_selftest.
  destruct (in_range sector PACKET_SIZE a) eqn:P.
  - apply Win; [reflexivity|]. rewrite R1, Er.
    assert (in_range sector sector a = true) as ->; [|reflexivity].
    unfold in_range in *. lia.
  - rewrite Wout by reflexivity. rewrite R1, Er, I, B. reflexivity.
Qed.

Lemma course_content (d : Dev) (l : bool) e :
  e = main_course bld plat (boot d l) ->
  write_succeeded (calls (final e)) ->
  forall a, cells (dev (final e)) a = after_selftest sector (cells d) a.
Proof.
  intros E. course_split E; subst e; world_simpl;
    intros (xaddr & xlen & xbuf & Hin); cbn [In] in Hin;
    repeat (destruct Hin as [Hin|Hin]); try contradiction; try discriminate;
    inversion Hin; subst; try congruence;
    intros a; rewrite ?(fc_enable_xip contract);
    eapply contract_chain; eassumption.
Qed.

Lemma Idles_main_final (w0 wf : World Dev) :
  Idles plat (main bld) w0 wf ->
  dev wf = dev (final (main_course bld plat w0)) /\
  calls wf = calls (final (main_course bld plat w0)).
Proof.
  intros [c1 H1]. destruct (main_ends w0) as [c2 H2].
  destruct (H1 (c1 + c2)%nat ltac:(lia)) as [l1 E1].
  destruct (H2 (c1 + c2)%nat ltac:(lia)) as [l2 E2].
  rewrite E1 in E2. inversion E2. split; reflexivity.
Qed.

(** C6.  With a flash driver that keeps its contract, take two runs of
    [main], the second starting on the flash content the first one left, in
    each of which the sequence got through its write (so the erase, the read
    and the write succeeded and the read back was made).  When the runs have
    come to rest the flash holds the same content after the second as after
    the first: the pattern at the start of the second sector, the rest of
    that sector erased, every other cell as it was before the first run. *)
Theorem rerun_leaves_same_content (d1 d2 : Dev) (l1 l2 : bool) (wf1 wf2 : World Dev) :
  Idles plat (main bld) (boot d1 l1) wf1 ->
  Idles plat (main bld) (boot d2 l2) wf2 ->
  write_succeeded (calls wf1) ->
  write_succeeded (calls wf2) ->
  (forall a, cells d2 a = cells (dev wf1) a) ->
  forall a,
    cells (dev wf2) a = cells (dev wf1) a /\
    cells (dev wf1) a = after_selftest sector (cells d1) a.
Proof.
  intros I1 I2 W1 W2 Same a.
  apply Idles_main_final in I1, I2. destruct I1 as [D1 C1], I2 as [D2 C2].
  rewrite C1 in W1. rewrite C2 in W2.
  pose proof (@course_content d1 l1 _ eq_refl W1) as F1.
  pose proof (@course_content d2 l2 _ eq_refl W2) as F2.
  rewrite D1, D2 in *. split; [|apply F1].
  rewrite F2, F1. unfold after_selftest.
  destruct (in_range sector PACKET_SIZE a) eqn:P0; [reflexivity|].
  destruct (in_range sector sector a) eqn:S0; [reflexivity|].
  rewrite Same, F1. unfold after_selftest. rewrite P0, S0. reflexivity.
Qed.

End Content.

(** * The rest of [main] *)

(** X1.  Whatever the platform does and whatever world it starts in,
    [main] never returns, and every run comes to rest: from some step on the
    console, the record of calls and the state of the platform stay what they
    are, and only the level of the LED may still change. *)
Theorem main_runs_forever (w0 : World Dev) :
  (forall n, returned (run plat n (main bld) w0) = false) /\
  exists steps wf,
    forall n, (steps <= n)%nat ->
      exists level, run plat n (main bld) w0 = Running (set_led level wf).
Proof.
  split; [intros n; apply main_never_returns|].
  destruct (main_ends w0) as [c H]. exists c, (final (main_course bld plat w0)). exact H.
Qed.

(** *** The order of the driver calls *)

Lemma firstn_prefix {A} (l cs L : list A) k :
  (l ++ cs)%list = firstn k L -> l = firstn (List.length l) L.
Proof.
  intros H.
  assert (Hlen : (List.length l <= k)%nat).
  { apply (f_equal (@List.length A)) in H.
    rewrite length_app, length_firstn in H. lia. }
  replace (firstn (List.length l) L) with (firstn (List.length l) (firstn k L)).
  - rewrite <- H. rewrite firstn_app, Nat.sub_diag, firstn_all.
    cbn [firstn]. now rewrite app_nil_r.
  - rewrite firstn_firstn. f_equal. lia.
Qed.

Lemma course_protocol (d : Dev) (l : bool) e :
  e = main_course bld plat (boot d l) ->
  exists sectorSize total s0 s1 s2 s3 s4 rx1 rx2,
    calls (final e) =
      firstn (List.length (calls (final e)))
             (selftest_sequence sectorSize total s0 s1 s2 s3 s4 rx1 rx2) /\
    ((1 < List.length (calls (final e)))%nat -> s0 = 0) /\
    ((4 < List.length (calls (final e)))%nat -> s1 = 0) /\
    ((5 < List.length (calls (final e)))%nat -> s2 = 0) /\
    ((6 < List.length (calls (final e)))%nat -> s3 = 0) /\
    ((7 < List.length (calls (final e)))%nat -> s4 = 0 /\ rx2 = pattern).
Proof.
  intros E. course_split E; subst e; world_simpl; cbn [List.length];
    eexists _, _, _, _, _, _, _, _, _;
    (split; [unfold selftest_sequence; cbn [firstn]; reflexivity|]);
    (split; [|split; [|split; [|split]]]); intros Hk; try lia; try congruence;
    (split; [congruence|]);
    match goal with
    | H : 0 = u32 (memcmp _ _ _) |- _ =>
        apply compare_zero in H; [exact H | apply pattern_length | apply readback_length]
    end.
  Unshelve. all: first [exact 0 | exact []%list].
Qed.

(** X2.  In every run of [main] the driver calls made so far are an
    initial part of one fixed sequence: init at 50 MHz, the erase size at
    address 0, the device size, the erase of one sector at the sector size,
    the read of a packet there, the write of the pattern there, the read
    back, the switch to XIP.  A call is made only when every status before it
    was zero, and XIP is enabled only when the read back returned the pattern:
    so nothing is written before a successful erase, and no call is made
    twice or out of order. *)
Theorem calls_follow_the_sequence (d : Dev) (l : bool) (n : nat) (w : World Dev) :
  run plat n (main bld) (boot d l) = Running w ->
  exists sectorSize total s0 s1 s2 s3 s4 rx1 rx2,
    calls w =
      firstn (List.length (calls w))
             (selftest_sequence sectorSize total s0 s1 s2 s3 s4 rx1 rx2) /\
    ((1 < List.length (calls w))%nat -> s0 = 0) /\
    ((4 < List.length (calls w))%nat -> s1 = 0) /\
    ((5 < List.length (calls w))%nat -> s2 = 0) /\
    ((6 < List.length (calls w))%nat -> s3 = 0) /\
    ((7 < List.length (calls w))%nat -> s4 = 0 /\ rx2 = pattern).
Proof.
  intros Hrun. apply main_prefix in Hrun. destruct Hrun as [cs Hcs].
  destruct (@course_protocol d l _ eq_refl)
    as (S0 & total & s0 & s1 & s2 & s3 & s4 & rx1 & rx2 & Hseq & H0 & H1 & H2 & H3 & H4).
  exists S0, total, s0, s1, s2, s3, s4, rx1, rx2.
  assert (Hlen : (List.length (calls w) <=
                  List.length (calls (final (main_course bld plat (boot d l)))))%nat)
    by (rewrite Hcs, length_app; lia).
  split.
  - rewrite Hcs in Hseq at 1. apply firstn_prefix in Hseq. exact Hseq.
  - (split; [|split; [|split; [|split]]]); intros Hk;
      first [apply H0 | apply H1 | apply H2 | apply H3 | apply H4]; lia.
Qed.

(** *** What each failure prints *)

Lemma halted_prints (w0 wf : World Dev) before text :
  main_course bld plat w0 = Halted wf ->
  led wf = CYBSP_LED_STATE_ON bld ->
  console wf = before ++ text ->
  halts_printing bld plat w0 text.
Proof.
  intros E Hl Hc. exists wf. split; [apply main_halts; exact E|].
  split; [exact Hl | exists before; exact Hc].
Qed.

Ltac show_halt :=
  eexists; split; [reflexivity | split; [reflexivity | eexists; reflexivity]].

Ltac find_text :=
  repeat first
    [ lazymatch goal with
      | |- shows (_ ++ ?s) ?s => apply shows_here
      end
    | apply shows_left ].

Ltac pick_call Hin :=
  cbn [In after_write before_write] in Hin;
  repeat (lazymatch type of Hin with
          | _ \/ _ => destruct Hin as [Hin|Hin]
          end);
  try contradiction; try discriminate;
  inversion Hin; subst.

Lemma course_init_failure (d : Dev) (l : bool) e :
  e = main_course bld plat (boot d l) ->
  forall hz status,
    In (CInit hz status) (calls (final e)) -> status <> 0 ->
    exists wf,
      e = Halted wf /\ led wf = CYBSP_LED_STATE_ON bld /\
      (exists before,
         console wf = before ++ failure_block "Serial Flash initialization failed" status) /\
      calls wf = [CInit hz status].
Proof.
  intros E. course_split E; subst e; world_simpl;
    intros xhz xstatus Hin Hne; pick_call Hin; try congruence.
  eexists; split; [reflexivity|]. split; [reflexivity|].
  split; [eexists; reflexivity | reflexivity].
Qed.

(** X3.  In every run of [main] in which the initialisation of the
    serial-flash driver returns a nonzero status, the program halts for good
    with the LED lit and the failure block for a failed initialisation, with
    that status, the last thing on the console; the init call is the only
    driver call the run ever makes, so the flash is neither erased, read nor
    written. *)
Theorem init_failure_stops_before_any_transfer
        (d : Dev) (l : bool) (n : nat) (w : World Dev) (hz status : Z) :
  run plat n (main bld) (boot d l) = Running w ->
  In (CInit hz status) (calls w) -> status <> 0 ->
  halts_printing bld plat (boot d l)
                 (failure_block "Serial Flash initialization failed" status) /\
  forall m w' c,
    run plat m (main bld) (boot d l) = Running w' -> In c (calls w') ->
    c = CInit hz status.
Proof.
  intros Hrun Hin Hne. apply main_prefix in Hrun. destruct Hrun as [cs Hcs].
  destruct (@course_init_failure d l _ eq_refl hz status) as (wf & E & Hl & [b Hb] & Hc);
    [rewrite Hcs; apply in_or_app; now left | exact Hne |].
  split; [eapply halted_prints; eassumption|].
  intros m w' c Hm Hc'. apply main_prefix in Hm. destruct Hm as [cs' Hm].
  rewrite E in Hm. cbn [final] in Hm. rewrite Hc in Hm.
  assert (Hin' : In c [CInit hz status]) by (rewrite Hm; apply in_or_app; now left).
  destruct Hin' as [<-|[]]. reflexivity.
Qed.

Lemma course_failure_messages (d : Dev) (l : bool) e :
  e = main_course bld plat (boot d l) ->
  (forall addr len status,
     In (CErase addr len status) (calls (final e)) -> status <> 0 ->
     exists wf, e = Halted wf /\ led wf = CYBSP_LED_STATE_ON bld /\
       exists before, console wf = before ++ failure_block "Erasing memory failed" status) /\
  (forall addr len buf status,
     In (CWrite addr len buf status) (calls (final e)) -> status <> 0 ->
     exists wf, e = Halted wf /\ led wf = CYBSP_LED_STATE_ON bld /\
       exists before, console wf = before ++ failure_block "Writing to memory failed" status) /\
  (forall addr len status rx,
     In (CRead addr len status rx) (after_write (calls (final e))) -> status <> 0 ->
     exists wf, e = Halted wf /\ led wf = CYBSP_LED_STATE_ON bld /\
       exists before, console wf = before ++ failure_block "Reading memory failed" status) /\
  (forall addr len rx,
     In (CRead addr len 0 rx) (after_write (calls (final e))) -> rx <> pattern ->
     exists wf, e = Halted wf /\ led wf = CYBSP_LED_STATE_ON bld /\
       exists before,
         console wf =
         before ++ failure_block
           "Read data does not match with written data. Read/Write operation failed."
           (u32 (memcmp pattern rx (Z.to_nat PACKET_SIZE)))).
Proof.
  intros E. course_split E; subst e; world_simpl;
    (split; [|split; [|split]]).
  all: try (intros xaddr xlen xstatus Hin Hne; pick_call Hin;
            first [congruence | show_halt]).
  all: try (intros xaddr xlen xbuf xstatus Hin Hne; pick_call Hin;
            first [congruence | show_halt]).
  all: intros xaddr xlen xrx Hin Hne; pick_call Hin;
    first [ congruence
          | show_halt
          | exfalso; apply Hne;
            match goal with
            | H : 0 = u32 (memcmp _ _ _) |- _ =>
                apply compare_zero in H;
                [exact H | apply pattern_length | apply readback_length]
            end ].
Qed.

(** X4.  Each failure of the self-test names its step.  In every run of
    [main] that records a failed erase, a failed write, a failed read back,
    or a read back that succeeded with bytes other than the pattern, the
    program halts for good with the LED lit and, last on the console, the
    failure block with the message of that step and with the status of the
    failed call as the code (for the comparison, the result of [memcmp]
    converted to 32 bits). *)
Theorem failure_names_its_step (d : Dev) (l : bool) (n : nat) (w : World Dev) :
  run plat n (main bld) (boot d l) = Running w ->
  (forall addr len status,
     In (CErase addr len status) (calls w) -> status <> 0 ->
     halts_printing bld plat (boot d l) (failure_block "Erasing memory failed" status)) /\
  (forall addr len buf status,
     In (CWrite addr len buf status) (calls w) -> status <> 0 ->
     halts_printing bld plat (boot d l) (failure_block "Writing to memory failed" status)) /\
  (forall addr len status rx,
     In (CRead addr len status rx) (after_write (calls w)) -> status <> 0 ->
     halts_printing bld plat (boot d l) (failure_block "Reading memory failed" status)) /\
  (forall addr len rx,
     In (CRead addr len 0 rx) (after_write (calls w)) -> rx <> pattern ->
     halts_printing bld plat (boot d l)
       (failure_block
          "Read data does not match with written data. Read/Write operation failed."
          (u32 (memcmp pattern rx (Z.to_nat PACKET_SIZE))))).
Proof.
  intros Hrun. apply main_prefix in Hrun. destruct Hrun as [cs Hcs].
  destruct (@course_failure_messages d l _ eq_refl) as (He & Hw & Hr & Hm).
  split; [|split; [|split]].
  - intros addr len status Hin Hne.
    destruct (He addr len status) as (wf & E & Hl & [b Hb]);
      [rewrite Hcs; apply in_or_app; now left | exact Hne |].
    eapply halted_prints; eassumption.
  - intros addr len buf status Hin Hne.
    destruct (Hw addr len buf status) as (wf & E & Hl & [b Hb]);
      [rewrite Hcs; apply in_or_app; now left | exact Hne |].
    eapply halted_prints; eassumption.
  - intros addr len status rx Hin Hne.
    destruct (Hr addr len status rx) as (wf & E & Hl & [b Hb]);
      [rewrite Hcs; now apply after_write_app | exact Hne |].
    eapply halted_prints; eassumption.
  - intros addr len rx Hin Hne.
    destruct (Hm addr len rx) as (wf & E & Hl & [b Hb]);
      [rewrite Hcs; now apply after_write_app | exact Hne |].
    eapply halted_prints; eassumption.
Qed.

(** *** The passing comparison and the placement of the symbols *)

Lemma course_clean_readback (d : Dev) (l : bool) e :
  e = main_course bld plat (boot d l) ->
  forall addr len,
    In (CRead addr len 0 pattern) (after_write (calls (final e))) ->
    In (CEnableXip true) (calls (final e)) /\
    shows (console (final e))
          (nl ++ "SUCCESS: Read data matches with written data!" ++ nl).
Proof.
  intros E. course_split E; subst e; world_simpl;
    intros xaddr xlen Hin; pick_call Hin; try congruence;
    try match goal with
        | Heq : _ = pattern, N : 0 <> u32 (memcmp pattern _ _) |- _ =>
            exfalso; apply N; apply compare_zero;
            [apply pattern_length | apply readback_length | exact Heq]
        end.
  all: split; [cbn [In]; tauto | find_text].
Qed.

(** X5.  The self-test raises no false alarm.  In every run of [main]
    in which the read back succeeds and leaves the pattern in the buffer, the
    run goes on: it prints the success line of the comparison and enables
    XIP. *)
Theorem clean_readback_enables_xip (d : Dev) (l : bool) (n : nat) (w : World Dev)
        (addr len : Z) :
  run plat n (main bld) (boot d l) = Running w ->
  In (CRead addr len 0 pattern) (after_write (calls w)) ->
  exists m w',
    run plat m (main bld) (boot d l) = Running w' /\
    In (CEnableXip true) (calls w') /\
    shows (console w') (nl ++ "SUCCESS: Read data matches with written data!" ++ nl).
Proof.
  intros Hrun Hin. apply main_prefix in Hrun. destruct Hrun as [cs Hcs].
  destruct (@course_clean_readback d l _ eq_refl addr len) as [Hx Hs];
    [rewrite Hcs; now apply after_write_app|].
  destruct (main_ends (boot d l)) as [c H]. destruct (H c (Nat.le_refl c)) as [lv Hc].
  exists c, (set_led lv (final (main_course bld plat (boot d l)))).
  split; [exact Hc | split; [exact Hx | exact Hs]].
Qed.

Lemma course_placement (d : Dev) (l : bool) e :
  e = main_course bld plat (boot d l) ->
  In (CEnableXip true) (calls (final e)) ->
  (u32 (hi_word_addr bld) < baseAddress bld ->
   exists wf, e = Halted wf /\ led wf = CYBSP_LED_STATE_ON bld /\
     exists before,
       console wf =
       before ++ placement_block "String not found in external memory."
                                 (u32 (hi_word_addr bld))) /\
  (baseAddress bld <= u32 (hi_word_addr bld) ->
   u32 (print_from_external_memory_addr bld) < baseAddress bld ->
   (exists wf, e = Halted wf /\ led wf = CYBSP_LED_STATE_ON bld /\
      exists before,
        console wf =
        before ++ placement_block "Function not found in external memory."
                                  (u32 (print_from_external_memory_addr bld))) /\
   shows (console (final e)) (nl ++ rule55 ++ nl ++ hi_word)).
Proof.
  intros E. course_split E; subst e; world_simpl;
    intros Hin; pick_call Hin;
    (split; [intros Hs | intros Hs Hf]; try lia).
  - show_halt.
  - split; [show_halt | find_text].
Qed.

(** X6.  Once XIP is enabled, [main] checks the two symbols in turn, each
    address taken as a 32-bit value.  If the string lies below the window the
    program halts with the LED lit and the placement block for the string
    last on the console.  If the string passes and the function lies below
    the window, the program halts with the placement block for the function,
    the string from external memory having been printed before. *)
Theorem misplaced_symbol_halts (d : Dev) (l : bool) (n : nat) (w : World Dev) :
  run plat n (main bld) (boot d l) = Running w ->
  In (CEnableXip true) (calls w) ->
  (u32 (hi_word_addr bld) < baseAddress bld ->
   halts_printing bld plat (boot d l)
     (placement_block "String not found in external memory." (u32 (hi_word_addr bld)))) /\
  (baseAddress bld <= u32 (hi_word_addr bld) ->
   u32 (print_from_external_memory_addr bld) < baseAddress bld ->
   halts_printing bld plat (boot d l)
     (placement_block "Function not found in external memory."
                      (u32 (print_from_external_memory_addr bld))) /\
   exists wf,
     Halts plat (main bld) (boot d l) wf /\
     shows (console wf) (nl ++ rule55 ++ nl ++ hi_word)).
Proof.
  intros Hrun Hin. apply main_prefix in Hrun. destruct Hrun as [cs Hcs].
  destruct (@course_placement d l _ eq_refl) as [Hstr Hfun];
    [rewrite Hcs; apply in_or_app; now left|].
  split.
  - intros Hs. destruct (Hstr Hs) as (wf & E & Hl & [b Hb]).
    eapply halted_prints; eassumption.
  - intros Hs Hf. destruct (Hfun Hs Hf) as [(wf & E & Hl & [b Hb]) Hshow].
    split; [eapply halted_prints; eassumption|].
    exists wf. split; [apply main_halts; exact E|].
    rewrite E in Hshow. exact Hshow.
Qed.

(** *** The idle loop *)

Lemma Blinks_bind {R U} (t : prog R) (k : R -> prog U) (u : prog U)
      (w : World Dev) r w1 e :
  Returns plat t w r w1 -> Blinks plat (k r) u w1 e -> Blinks plat (ITree.bind t k) u w e.
Proof.
  destruct e as [wf|wf]; cbn; [trivial|].
  intros [c1 H1] [c2 H2]. exists (c1 + c2)%nat. intros n.
  rewrite run_bind, <- Nat.add_assoc, H1. apply H2.
Qed.

Ltac bstep_printf := eapply Blinks_bind; [apply Returns_printf|].

Ltac bstep_call e :=
  match goal with
  | |- context [handle plat e ?w0] =>
      let H := fresh "Hcall" in
      destruct (handle plat e w0) eqn:H;
      (eapply Blinks_bind; [apply (Returns_call plat e), H|])
  end.

Ltac bstep_check result :=
  destruct (Z.eqb_spec 0 result) as [<-|?]; cbn [negb];
  [eapply Blinks_bind; [apply check_status_passes|] | exact I].

Ltac bstep_array :=
  eapply Blinks_bind;
  [apply print_array_returns; [unfold PACKET_SIZE in *; lia | reflexivity]|].

(** When [main_course] ends blinking, [main] reaches its last loop in the
    world it says. *)
Lemma main_blinks (w : World Dev) :
  Blinks plat (main bld)
         (ITree.forever (cyhal_gpio_toggle;; cyhal_system_delay_ms LED_TOGGLE_DELAY_MSEC))
         w (main_course bld plat w).
Proof.
  unfold main, main_course.
  bstep_call BspInit.
  unfold CY_ASSERT.
  destruct (NDEBUG bld), (_ =? CY_RSLT_SUCCESS); cbn [negb andb];
    try exact I;
    (eapply Blinks_bind; [apply Returns_ret|]);
    (eapply Blinks_bind; [apply Returns_enable_irq|]);
    (eapply Blinks_bind; [apply Returns_retarget_io_init|]);
    (eapply Blinks_bind; [apply Returns_gpio_init|]);
    do 2 bstep_printf.
  all: bstep_call (QspiInit QSPI_BUS_FREQUENCY_HZ).
  all: match goal with H : handle _ (QspiInit _) _ = (?r, _) |- _ => bstep_check r end.
  all: pose proof (init_buffers_length (uninit (txBuffer_junk bld) PACKET_SIZE)
                                       (uninit (rxBuffer_junk bld) PACKET_SIZE)) as [Ltx Lrx].
  all: rewrite !uninit_length in Ltx, Lrx.
  all: destruct (init_buffers _ _) as [txBuffer rxBuffer]; cbn [fst snd] in Ltx, Lrx.
  all: bstep_call (QspiGetEraseSize 0).
  all: bstep_call QspiGetSize.
  all: do 2 bstep_printf.
  all: match goal with
       | |- context [handle plat (QspiErase ?a ?l) _] => bstep_call (QspiErase a l)
       end.
  all: match goal with H : handle _ (QspiErase _ _) _ = (?r, _) |- _ => bstep_check r end.
  all: bstep_printf.
  all: match goal with
       | |- context [handle plat (QspiRead ?a ?l ?b) _] => bstep_call (QspiRead a l b)
       end.
  all: match goal with
       | H : handle _ (QspiRead _ _ _) _ = (?p, _) |- _ =>
           destruct p as [r1 rxBuffer1];
           pose proof H as Lrx1; apply handle_read_length in Lrx1; rewrite Lrx in Lrx1;
           clear Lrx; bstep_check r1
       end.
  all: bstep_array.
  all: bstep_printf.
  all: match goal with
       | |- context [handle plat (QspiWrite ?a ?l ?b) _] => bstep_call (QspiWrite a l b)
       end.
  all: match goal with H : handle _ (QspiWrite _ _ _) _ = (?r, _) |- _ => bstep_check r end.
  all: bstep_array.
  all: bstep_printf.
  all: match goal with
       | |- context [handle plat (QspiRead ?a ?l ?b) _] => bstep_call (QspiRead a l b)
       end.
  all: match goal with
       | H : handle _ (QspiRead _ _ _) _ = (?p, _), L : List.length ?b = _ |- _ =>
           is_var p; destruct p as [r2 rxBuffer2];
           pose proof H as Lrx2; apply handle_read_length in Lrx2; rewrite L in Lrx2;
           bstep_check r2
       end.
  all: bstep_array.
  all: match goal with
       | |- context [check_status _ _ ?r] =>
           destruct (Z.eqb_spec 0 r) as [<-|?]; cbn [negb];
           [eapply Blinks_bind; [apply check_status_passes|] | exact I]
       end.
  all: do 4 bstep_printf.
  all: bstep_call (QspiEnableXip true).
  all: destruct (Z.gtb_spec (baseAddress bld) (u32 (hi_word_addr bld)));
       [exact I | eapply Blinks_bind; [apply check_address_passes; lia|]].
  all: do 2 bstep_printf.
  all: destruct (Z.gtb_spec (baseAddress bld) (u32 (print_from_external_memory_addr bld)));
       [exact I | eapply Blinks_bind; [apply check_address_passes; lia|]].
  all: do 2 bstep_printf.
  all: unfold print_from_external_memory.
  all: do 4 bstep_printf.
  all: exists O; intros n; reflexivity.
Qed.

(** Three steps of the loop toggle the LED once. *)
Lemma blink_loop_exact {R} k : forall (w : World Dev),
  run plat (3 * k)
      (ITree.forever (cyhal_gpio_toggle;;
                      cyhal_system_delay_ms LED_TOGGLE_DELAY_MSEC) : prog R) w
  = Running (set_led (Nat.iter k negb (led w)) w).
Proof.
  induction k as [|k IH]; intros w.
  - rewrite run_forever, run_bind, run_bind. cbn. destruct w; reflexivity.
  - replace (3 * S k)%nat with (S (S (S (3 * k)))) by lia.
    rewrite run_forever, run_bind, run_bind.
    unfold cyhal_gpio_toggle. rewrite run_trigger. cbn [handle fst snd].
    unfold cyhal_system_delay_ms. rewrite run_trigger. cbn [handle fst snd].
    rewrite run_tau.
    pose proof (IH (set_led (negb (led w)) w)) as E.
    unfold cyhal_gpio_toggle, cyhal_system_delay_ms in E. rewrite E.
    cbn [led set_led dev console calls]. rewrite <- Nat.iter_succ_r. reflexivity.
Qed.

Lemma course_passes (d : Dev) (l : bool) e :
  e = main_course bld plat (boot d l) ->
  In (CEnableXip true) (calls (final e)) ->
  baseAddress bld <= u32 (hi_word_addr bld) ->
  baseAddress bld <= u32 (print_from_external_memory_addr bld) ->
  exists wf,
    e = Blinking wf /\
    led wf = CYBSP_LED_STATE_OFF bld /\
    shows (console wf) (nl ++ "Hello from the external function!" ++ nl) /\
    shows (console wf) (nl ++ "SUCCESS: Data successfully accessed in XIP mode!" ++ nl).
Proof.
  intros E. course_split E; subst e; world_simpl;
    intros Hin Hs Hf; pick_call Hin; try lia.
  eexists. split; [reflexivity|]. split; [reflexivity|].
  split; world_simpl; find_text.
Qed.

(** X7.  In every run of [main] that enables XIP and finds both symbols
    at or above the base of the window, the program prints the greeting of
    the function in external memory and the final success line and then
    blinks for good: there is a step from which, every three steps (toggle,
    delay, loop), the LED has been toggled once more, starting from its dark
    level, while the console, the record of calls and the platform stay as
    they are. *)
Theorem passing_run_blinks_forever (d : Dev) (l : bool) (n : nat) (w : World Dev) :
  run plat n (main bld) (boot d l) = Running w ->
  In (CEnableXip true) (calls w) ->
  baseAddress bld <= u32 (hi_word_addr bld) ->
  baseAddress bld <= u32 (print_from_external_memory_addr bld) ->
  exists steps wf,
    (forall k,
       run plat (steps + 3 * k) (main bld) (boot d l) =
       Running (set_led (Nat.iter k negb (CYBSP_LED_STATE_OFF bld)) wf)) /\
    shows (console wf) (nl ++ "Hello from the external function!" ++ nl) /\
    shows (console wf) (nl ++ "SUCCESS: Data successfully accessed in XIP mode!" ++ nl).
Proof.
  intros Hrun Hin Hs Hf. apply main_prefix in Hrun. destruct Hrun as [cs Hcs].
  destruct (@course_passes d l _ eq_refl) as (wf & E & Hl & H1 & H2);
    [rewrite Hcs; apply in_or_app; now left | exact Hs | exact Hf |].
  pose proof (main_blinks (boot d l)) as B. rewrite E in B. destruct B as [c B].
  exists c, wf. split; [|split; assumption].
  intros k. rewrite B, blink_loop_exact, Hl. reflexivity.
Qed.

(** *** The loop that fills the buffers *)

Lemma nth_error_store : forall (a : list byte) j v i,
  nth_error (store a j v) i =
  if (i =? j)%nat then (if (j <? List.length a)%nat then Some v else None)
  else nth_error a i.
Proof.
  induction a as [|h t IH]; intros j v i.
  - cbn. destruct (i =? j)%nat; destruct i; reflexivity.
  - destruct j as [|j], i as [|i]; cbn [store nth_error List.length Nat.eqb];
      try reflexivity.
    rewrite IH. destruct (i =? j)%nat; [|reflexivity].
    change (S j <? S (List.length t))%nat with (j <? List.length t)%nat. reflexivity.
Qed.

Lemma fill_nth_error (indices : list nat) : forall (tx rx : list byte) i,
  let filled :=
    fold_left
      (fun bufs index =>
         (store (fst bufs) index (u8 (Z.land (Z.of_nat index) 255)),
          store (snd bufs) index x00))
      indices (tx, rx) in
  (In i indices ->
   (i < List.length tx -> nth_error (fst filled) i = Some (u8 (Z.land (Z.of_nat i) 255)))%nat /\
   (i < List.length rx -> nth_error (snd filled) i = Some x00)%nat) /\
  (~ In i indices ->
   nth_error (fst filled) i = nth_error tx i /\
   nth_error (snd filled) i = nth_error rx i).
Proof.
  induction indices as [|j indices IH]; intros tx rx i; cbn zeta; cbn [fold_left fst snd].
  - split; [intros [] | intros _; split; reflexivity].
  - specialize (IH (store tx j (u8 (Z.land (Z.of_nat j) 255))) (store rx j x00) i).
    cbn zeta in IH. destruct IH as [IHin IHout]. rewrite !store_length in IHin.
    destruct (in_dec Nat.eq_dec i indices) as [Hi|Hi].
    + split; [intros _; exact (IHin Hi) | intros N; exfalso; apply N; now right].
    + destruct (IHout Hi) as [Etx Erx]. rewrite Etx, Erx, !nth_error_store.
      split.
      * intros [->|Hin]; [|contradiction]. rewrite Nat.eqb_refl.
        split; intros Hlt; apply Nat.ltb_lt in Hlt; rewrite Hlt; reflexivity.
      * intros N. assert (i <> j) as Hne by (intros ->; apply N; now left).
        apply Nat.eqb_neq in Hne. rewrite Hne. split; reflexivity.
Qed.

Lemma u8_land_255 z : u8 (Z.land z 255) = u8 z.
Proof.
  unfold u8. change 255 with (Z.ones 8). rewrite Z.land_ones by lia.
  change (2 ^ 8) with 256. rewrite Z.mod_mod by lia. reflexivity.
Qed.

(** X8.  The initialisation loop on two buffers of one packet each,
    whatever they hold: both keep their length, and every byte of the
    transmit buffer is set to its index converted to [uint8_t], every byte of
    the receive buffer to zero.  Nothing of the former content is left. *)
Theorem init_buffers_fills_one_packet (tx rx : list byte) (i : nat) :
  List.length tx = Z.to_nat PACKET_SIZE ->
  List.length rx = Z.to_nat PACKET_SIZE ->
  (i < Z.to_nat PACKET_SIZE)%nat ->
  List.length (fst (init_buffers tx rx)) = Z.to_nat PACKET_SIZE /\
  List.length (snd (init_buffers tx rx)) = Z.to_nat PACKET_SIZE /\
  nth_error (fst (init_buffers tx rx)) i = Some (u8 (Z.of_nat i)) /\
  nth_error (snd (init_buffers tx rx)) i = Some x00.
Proof.
  intros Htx Hrx Hi.
  destruct (init_buffers_length tx rx) as [L1 L2].
  split; [rewrite L1; exact Htx|]. split; [rewrite L2; exact Hrx|].
  pose proof (fill_nth_error (seq 0 (Z.to_nat PACKET_SIZE)) tx rx i) as H.
  cbv zeta in H. unfold init_buffers. destruct H as [Hin _].
  assert (Hseq : In i (seq 0 (Z.to_nat PACKET_SIZE))) by (apply in_seq; lia).
  destruct (Hin Hseq) as [Ht Hr]. split.
  - rewrite <- u8_land_255. apply Ht. rewrite Htx. exact Hi.
  - apply Hr. rewrite Hrx. exact Hi.
Qed.

(** *** The dump determines the bytes *)

Lemma hex_digit_inj x y :
  0 <= x < 16 -> 0 <= y < 16 -> hex_digit x = hex_digit y -> x = y.
Proof.
  intros Hx Hy.
  replace x with (Z.of_nat (Z.to_nat x)) by lia.
  replace y with (Z.of_nat (Z.to_nat y)) by lia.
  assert (Hnx : (Z.to_nat x < 16)%nat) by lia.
  assert (Hny : (Z.to_nat y < 16)%nat) by lia.
  revert Hnx Hny. generalize (Z.to_nat x) as nx, (Z.to_nat y) as ny. clear.
  intros nx ny.
  do 16 (destruct nx as [|nx];
         [do 16 (destruct ny as [|ny];
                 [intros _ _ H; vm_compute in H; first [reflexivity | discriminate H]|]);
          intros _ Hny; exfalso; lia|]).
  intros Hnx; exfalso; lia.
Qed.

Lemma hex_pair_inj a b : hex_pair a = hex_pair b -> a = b.
Proof.
  unfold hex_pair. intros H. injection H as H1 H2.
  assert (Ba : 0 <= byte_to_Z a < 256)
    by (unfold byte_to_Z; pose proof (Byte.to_N_bounded a); lia).
  assert (Bb : 0 <= byte_to_Z b < 256)
    by (unfold byte_to_Z; pose proof (Byte.to_N_bounded b); lia).
  apply hex_digit_inj in H2; [|apply Z.mod_pos_bound; lia ..].
  apply hex_digit_inj in H1;
    [|split; [apply Z.div_pos; lia | apply Z.div_lt_upper_bound; lia] ..].
  apply byte_to_Z_inj.
  rewrite (Z.div_mod (byte_to_Z a) 16), (Z.div_mod (byte_to_Z b) 16) by lia.
  rewrite H1, H2. reflexivity.
Qed.

Lemma hexdump_inj : forall l1 l2 index, hexdump index l1 = hexdump index l2 -> l1 = l2.
Proof.
  induction l1 as [|b1 l1 IH]; intros [|b2 l2] index H; cbn [hexdump] in H.
  - reflexivity.
  - discriminate H.
  - discriminate H.
  - cbn [append] in H. unfold hex_pair in H. cbn [append] in H.
    injection H as H1 H2 H3.
    assert (hex_pair b1 = hex_pair b2) as Hp by (unfold hex_pair; now rewrite H1, H2).
    apply hex_pair_inj in Hp. subst b2. f_equal.
    apply (IH l2 (S index)).
    destruct ((Z.of_nat index + 1) mod 16 =? 0); cbn in H3;
      [injection H3 as H3|]; exact H3.
Qed.

Lemma append_cancel_l (a b c : string) : a ++ b = a ++ c -> b = c.
Proof.
  induction a as [|x a IH]; cbn; [trivial|]. intros H. injection H as H. auto.
Qed.

(** X9.  The dump of [print_array] determines the bytes.  When two
    buffers of the same length are dumped whole from the same world, under
    the same heading, and the two calls leave the same console, the buffers
    are equal. *)
Theorem print_array_dump_is_faithful (message : string) (buf1 buf2 : list byte)
        (w w1 w2 : World Dev) (n1 n2 left1 left2 : nat) :
  List.length buf1 = List.length buf2 ->
  Z.of_nat (List.length buf1) < 2 ^ 32 ->
  run plat n1 (print_array message buf1 (Z.of_nat (List.length buf1))) w = Returned tt w1 left1 ->
  run plat n2 (print_array message buf2 (Z.of_nat (List.length buf2))) w = Returned tt w2 left2 ->
  console w1 = console w2 ->
  buf1 = buf2.
Proof.
  intros Hlen Hmax R1 R2 Hc.
  assert (F : forall buf n left w',
             Z.of_nat (List.length buf) < 2 ^ 32 ->
             run plat n (print_array message buf (Z.of_nat (List.length buf))) w
             = Returned tt w' left ->
             console w' = console w ++ array_text message buf (Z.of_nat (List.length buf))).
  { intros buf n left w' Hm Hr.
    destruct (@print_array_returns _ plat message buf (Z.of_nat (List.length buf)) w
                ltac:(lia) Hm) as [c H].
    apply (run_more plat c) in Hr. specialize (H n).
    rewrite Nat.add_comm, Hr in H. inversion H. reflexivity. }
  apply F in R1; [|exact Hmax]. apply F in R2; [|rewrite <- Hlen; exact Hmax].
  rewrite R1, R2 in Hc. apply append_cancel_l in Hc.
  unfold array_text in Hc. rewrite <- Hlen in Hc.
  do 2 apply append_cancel_l in Hc.
  rewrite Nat2Z.id in Hc. rewrite firstn_all in Hc.
  rewrite Hlen, firstn_all in Hc. apply hexdump_inj in Hc. exact Hc.
Qed.

End Main.







(** * The simulated device at work *)

Example fmt_0X_status : fmt_0X 8 5 = "00000005".
Proof. reflexivity. Qed.

Example fmt_0X_byte : fmt_0X 2 (byte_to_Z xaf) = "AF".
Proof. reflexivity. Qed.

Example fmt_lx_window : fmt_lx 402653184 = "18000000".
Proof. reflexivity. Qed.

Example fmt_u_size : fmt_u 262144 = "262144".
Proof. reflexivity. Qed.

Example memcmp_first_difference : memcmp [x01; x02; x03] [x01; x05; x00] 3 = -3.
Proof. reflexivity. Qed.

(** A passing run on the demo board ends blinking, with the eight driver
    calls in order. *)
Example demo_run_passes :
  match main_course demo_build demo_platform (boot (demo_sim []) true) with
  | Blinking wf =>
      calls wf =
      [CInit 50000000 0; CGetEraseSize 0 128; CGetSize 512; CErase 128 128 0;
       CRead 128 64 0 (repeat xff 64); CWrite 128 64 pattern 0;
       CRead 128 64 0 pattern; CEnableXip true]
  | Halted _ => False
  end.
Proof. vm_compute. reflexivity. Qed.

(** On a worn device the erase leaves the zeros in place and the write
    cannot set bits: the run halts after the read back, with the LED lit and
    XIP never enabled. *)
Example worn_run_mismatch :
  match main_course demo_build worn_platform (boot (demo_sim []) true) with
  | Halted wf =>
      led wf = false /\
      calls wf =
      [CInit 50000000 0; CGetEraseSize 0 128; CGetSize 512; CErase 128 128 0;
       CRead 128 64 0 (repeat x00 64); CWrite 128 64 pattern 0;
       CRead 128 64 0 (repeat x00 64)]
  | Blinking _ => False
  end.
Proof. vm_compute. split; reflexivity. Qed.

Lemma byte_and_erased (b : byte) : byte_and xff b = b.
Proof. destruct b; reflexivity. Qed.

Lemma u32_idempotent z : u32 (u32 z) = u32 z.
Proof. unfold u32. apply Z.mod_mod. lia. Qed.

Lemma sim_status_cells d : sim_cells (snd (sim_status d)) = sim_cells d.
Proof. unfold sim_status. destruct (sim_faults d); reflexivity. Qed.

Lemma sim_status_u32 d : u32 (fst (sim_status d)) = fst (sim_status d).
Proof.
  unfold sim_status. destruct (sim_faults d); cbn [fst]; [reflexivity | apply u32_idempotent].
Qed.

(** The healthy simulated device keeps the contract of the driver. *)
Lemma demo_contract : FlashContract demo_platform sim_cells 128.
Proof.
  constructor.
  - reflexivity.
  - unfold PACKET_SIZE. lia.
  - reflexivity.
  - intros hz d a. cbn. now rewrite sim_status_cells.
  - intros addr len d a. cbn.
    pose proof (sim_status_cells d) as C.
    destruct (sim_status d) as [s d']. cbn [snd] in C.
    destruct (s =? 0); cbn [snd]; now rewrite C.
  - reflexivity.
  - intros addr len d a. cbn.
    pose proof (sim_status_cells d) as C. pose proof (sim_status_u32 d) as U.
    destruct (sim_status d) as [s d']. cbn [fst snd] in C, U.
    destruct (Z.eqb_spec s 0) as [->|N]; cbn [andb negb fst snd].
    + intros _. rewrite C. unfold in_range. reflexivity.
    + intros H. congruence.
  - intros addr len buf d a. cbn.
    pose proof (sim_status_cells d) as C. pose proof (sim_status_u32 d) as U.
    destruct (sim_status d) as [s d']. cbn [fst snd] in C, U.
    destruct (Z.eqb_spec s 0) as [->|N]; cbn [fst snd].
    + intros _. rewrite C. unfold in_range. cbn [sim_cells sim_set_cells]. split.
      * intros -> ->. apply byte_and_erased.
      * intros ->. reflexivity.
    + intros H. congruence.
Qed.

(** ** The theorems on the demo board *)

(** The read after the erase fails with status 5. *)
Lemma selftest_failure_is_terminal_witness :
  let w0 := boot (demo_sim [0; 0; 5]) true in
  let w := world_of (run demo_platform 20 (main demo_build) w0) in
  run demo_platform 20 (main demo_build) w0 = Running w /\
  transfer_failed (calls w) /\
  exists wf message code,
    (exists steps, forall m, (steps <= m)%nat ->
       run demo_platform m (main demo_build) w0 = Running wf) /\
    (forall m, returned (run demo_platform m (main demo_build) w0) = false) /\
    code <> 0 /\
    led wf = false /\
    (exists before, console wf = before ++ failure_block message code) /\
    (forall c status,
       In c (calls w) -> transfer_status c = Some status -> status <> 0 -> code = status).
Proof.
  cbv zeta.
  assert (H1 : run demo_platform 20 (main demo_build) (boot (demo_sim [0; 0; 5]) true) =
               Running (world_of (run demo_platform 20 (main demo_build)
                                      (boot (demo_sim [0; 0; 5]) true))))
    by (vm_compute; reflexivity).
  assert (H2 : transfer_failed
                 (calls (world_of (run demo_platform 20 (main demo_build)
                                       (boot (demo_sim [0; 0; 5]) true))))).
  { exists (CRead 128 64 5 (repeat x00 64)), 5.
    split; [vm_compute; do 4 right; left; reflexivity|].
    split; [reflexivity | discriminate]. }
  split; [exact H1|]. split; [exact H2|].
  exact (@selftest_failure_is_terminal demo_build Sim demo_platform
           (demo_sim [0; 0; 5]) true 20 _ H1 (or_introl H2)).
Defined.

(** The read after the write fails with status 7. *)
Lemma failure_halts_forward_progress_witness :
  let w0 := boot (demo_sim [0; 0; 0; 0; 7]) true in
  let w := world_of (run demo_platform 300 (main demo_build) w0) in
  run demo_platform 300 (main demo_build) w0 = Running w /\
  readback_failed (calls w) /\
  (exists wf,
     (exists steps, forall m, (steps <= m)%nat ->
        run demo_platform m (main demo_build) w0 = Running wf) /\
     led wf = false) /\
  (forall m w' enable,
     run demo_platform m (main demo_build) w0 = Running w' ->
     ~ In (CEnableXip enable) (calls w')).
Proof.
  cbv zeta.
  assert (H1 : run demo_platform 300 (main demo_build) (boot (demo_sim [0; 0; 0; 0; 7]) true) =
               Running (world_of (run demo_platform 300 (main demo_build)
                                      (boot (demo_sim [0; 0; 0; 0; 7]) true))))
    by (vm_compute; reflexivity).
  assert (H2 : readback_failed
                 (calls (world_of (run demo_platform 300 (main demo_build)
                                       (boot (demo_sim [0; 0; 0; 0; 7]) true))))).
  { exists 128, 64, 7, (repeat xff 64).
    split; [vm_compute; left; reflexivity | discriminate]. }
  split; [exact H1|]. split; [exact H2|].
  destruct (@failure_halts_forward_progress demo_build Sim demo_platform
              (demo_sim [0; 0; 0; 0; 7]) true 300 _ H1 H2) as (A & B & _).
  split; [exact A | exact B].
Defined.

(** The erase call of a passing run. *)
Lemma target_is_second_sector_witness :
  let w0 := boot (demo_sim []) true in
  let w := world_of (run demo_platform 20 (main demo_build) w0) in
  run demo_platform 20 (main demo_build) w0 = Running w /\
  In (CErase 128 128 0) (calls w) /\
  transfer_addr (CErase 128 128 0) = Some 128 /\
  exists sectorSize,
    In (CGetEraseSize 0 sectorSize) (calls w) /\
    128 = 1 * sectorSize /\
    (sectorSize | 128) /\
    (sectorSize <> 0 -> 128 <> 0) /\
    (forall a len status, CErase 128 128 0 = CErase a len status -> len = sectorSize).
Proof.
  cbv zeta.
  assert (H1 : run demo_platform 20 (main demo_build) (boot (demo_sim []) true) =
               Running (world_of (run demo_platform 20 (main demo_build)
                                      (boot (demo_sim []) true))))
    by (vm_compute; reflexivity).
  assert (H2 : In (CErase 128 128 0)
                  (calls (world_of (run demo_platform 20 (main demo_build)
                                        (boot (demo_sim []) true)))))
    by (vm_compute; do 3 right; left; reflexivity).
  split; [exact H1|]. split; [exact H2|]. split; [reflexivity|].
  exact (@target_is_second_sector demo_build Sim demo_platform
           (demo_sim []) true 20 _ (CErase 128 128 0) 128 H1 H2 eq_refl).
Defined.

(** The read after the erase fails with status 5. *)
Lemma read_after_erase_checks_status_only_witness :
  let w0 := boot (demo_sim [0; 0; 5]) true in
  let w := world_of (run demo_platform 20 (main demo_build) w0) in
  run demo_platform 20 (main demo_build) w0 = Running w /\
  In (CRead 128 64 5 (repeat x00 64)) (before_write (calls w)) /\
  exists wf,
    (exists steps, forall m, (steps <= m)%nat ->
       run demo_platform m (main demo_build) w0 = Running wf) /\
    led wf = false /\
    (exists before, console wf = before ++ failure_block "Reading memory failed" 5) /\
    written (calls wf) = None.
Proof.
  cbv zeta.
  assert (H1 : run demo_platform 20 (main demo_build) (boot (demo_sim [0; 0; 5]) true) =
               Running (world_of (run demo_platform 20 (main demo_build)
                                      (boot (demo_sim [0; 0; 5]) true))))
    by (vm_compute; reflexivity).
  assert (H2 : In (CRead 128 64 5 (repeat x00 64))
                  (before_write
                     (calls (world_of (run demo_platform 20 (main demo_build)
                                           (boot (demo_sim [0; 0; 5]) true))))))
    by (vm_compute; do 4 right; left; reflexivity).
  split; [exact H1|]. split; [exact H2|].
  destruct (@read_after_erase_checks_status_only demo_build Sim demo_platform
              (demo_sim [0; 0; 5]) true 20 _ 128 64 5 (repeat x00 64) H1 H2) as [Bad _].
  apply Bad. discriminate.
Defined.

(** Three bytes dumped on a fresh console. *)
Lemma print_array_dumps_hex_witness :
  0 <= 3 <= Z.of_nat (List.length [x00; xff; x1a]) /\ 3 < 2 ^ 32 /\
  exists steps, forall n,
    run demo_platform (steps + n) (print_array "Data" [x00; xff; x1a] 3)
        (boot (demo_sim []) true) =
    Returned tt (mkWorld (demo_sim [])
                         ("" ++ (nl ++ "Data" ++ " (" ++ fmt_u 3 ++ " bytes):" ++ nl) ++
                          (rule25 ++ nl) ++
                          hexdump 0 (firstn (Z.to_nat 3) [x00; xff; x1a]))
                         true []) n.
Proof.
  assert (H1 : 0 <= 3 <= Z.of_nat (List.length [x00; xff; x1a])) by (cbn; lia).
  assert (H2 : 3 < 2 ^ 32) by reflexivity.
  split; [exact H1|]. split; [exact H2|].
  exact (@print_array_dumps_hex Sim demo_platform "Data" [x00; xff; x1a] 3
           (boot (demo_sim []) true) H1 H2).
Defined.

(** The last address of the 32-bit space, far above the window. *)
Lemma check_address_has_no_upper_bound_witness :
  baseAddress demo_build <= 4294967295 /\
  forall n,
    run demo_platform n (check_address demo_build "Symbol" 4294967295)
        (boot (demo_sim []) true) =
    Returned tt (boot (demo_sim []) true) n.
Proof.
  assert (H : baseAddress demo_build <= 4294967295) by (cbn; lia).
  split; [exact H|].
  exact (proj1 (@check_address_has_no_upper_bound demo_build Sim demo_platform "Symbol"
                  4294967295 (boot (demo_sim []) true) H)).
Defined.

(** An address one below the window. *)
Lemma check_address_lower_bound_inclusive_witness :
  402653183 < baseAddress demo_build /\
  Halts demo_platform (check_address demo_build "Symbol" 402653183)
        (boot (demo_sim []) true)
        (failed demo_build (placement_block "Symbol" 402653183) (boot (demo_sim []) true)).
Proof.
  assert (H : 402653183 < baseAddress demo_build) by reflexivity.
  split; [exact H|].
  destruct (@check_address_lower_bound_inclusive demo_build Sim demo_platform "Symbol"
              402653183 (boot (demo_sim []) true)) as (_ & [_ Low] & _).
  exact (Low H).
Defined.

(** Byte 37 of the pattern. *)
Lemma tx_pattern_seeded_witness :
  0 <= 37 < PACKET_SIZE /\
  byte_to_Z (load (fst (init_buffers (uninit (txBuffer_junk demo_build) PACKET_SIZE)
                                     (uninit (rxBuffer_junk demo_build) PACKET_SIZE))) 37)
  = 37 mod 256.
Proof.
  assert (H : 0 <= 37 < PACKET_SIZE) by (unfold PACKET_SIZE; lia).
  split; [exact H|].
  exact (proj1 (proj2 (@tx_pattern_seeded demo_build Sim demo_platform 37 H))).
Defined.

(** Two passing runs in succession on the healthy device. *)
Lemma rerun_leaves_same_content_witness :
  let w1 := final (main_course demo_build demo_platform (boot (demo_sim []) true)) in
  let w2 := final (main_course demo_build demo_platform (boot (dev w1) true)) in
  FlashContract demo_platform sim_cells 128 /\
  Idles demo_platform (main demo_build) (boot (demo_sim []) true) w1 /\
  Idles demo_platform (main demo_build) (boot (dev w1) true) w2 /\
  write_succeeded (calls w1) /\
  write_succeeded (calls w2) /\
  (forall a, sim_cells (dev w1) a = sim_cells (dev w1) a) /\
  forall a,
    sim_cells (dev w2) a = sim_cells (dev w1) a /\
    sim_cells (dev w1) a = after_selftest 128 (sim_cells (demo_sim [])) a.
Proof.
  cbv zeta.
  pose proof demo_contract as H0.
  pose proof (main_ends demo_build demo_platform (boot (demo_sim []) true)) as H1.
  pose proof (main_ends demo_build demo_platform
                (boot (dev (final (main_course demo_build demo_platform
                                     (boot (demo_sim []) true)))) true)) as H2.
  assert (H3 : write_succeeded
                 (calls (final (main_course demo_build demo_platform
                                  (boot (demo_sim []) true))))).
  { exists 128, 64, pattern. vm_compute. do 5 right. left. reflexivity. }
  assert (H4 : write_succeeded
                 (calls (final (main_course demo_build demo_platform
                    (boot (dev (final (main_course demo_build demo_platform
                                         (boot (demo_sim []) true)))) true))))).
  { exists 128, 64, pattern. vm_compute. do 5 right. left. reflexivity. }
  split; [exact H0|]. split; [exact H1|]. split; [exact H2|].
  split; [exact H3|]. split; [exact H4|]. split; [reflexivity|].
  exact (@rerun_leaves_same_content demo_build Sim demo_platform sim_cells 128 H0
           _ _ _ _ _ _ H1 H2 H3 H4 (fun a => eq_refl)).
Defined.

(** ** The rest of [main] on the demo board *)

(** A passing run, twenty steps in: four calls made so far. *)
Lemma calls_follow_the_sequence_witness :
  let w0 := boot (demo_sim []) true in
  let w := world_of (run demo_platform 20 (main demo_build) w0) in
  run demo_platform 20 (main demo_build) w0 = Running w /\
  exists sectorSize total s0 s1 s2 s3 s4 rx1 rx2,
    calls w =
      firstn (List.length (calls w))
             (selftest_sequence sectorSize total s0 s1 s2 s3 s4 rx1 rx2) /\
    ((1 < List.length (calls w))%nat -> s0 = 0) /\
    ((4 < List.length (calls w))%nat -> s1 = 0) /\
    ((5 < List.length (calls w))%nat -> s2 = 0) /\
    ((6 < List.length (calls w))%nat -> s3 = 0) /\
    ((7 < List.length (calls w))%nat -> s4 = 0 /\ rx2 = pattern).
Proof.
  cbv zeta.
  assert (H1 : run demo_platform 20 (main demo_build) (boot (demo_sim []) true) =
               Running (world_of (run demo_platform 20 (main demo_build)
                                      (boot (demo_sim []) true))))
    by (vm_compute; reflexivity).
  split; [exact H1|].
  exact (@calls_follow_the_sequence demo_build Sim demo_platform (demo_sim []) true 20 _ H1).
Defined.

(** The initialisation fails with status 9. *)
Lemma init_failure_stops_before_any_transfer_witness :
  let w0 := boot (demo_sim [9]) true in
  let w := world_of (run demo_platform 10 (main demo_build) w0) in
  run demo_platform 10 (main demo_build) w0 = Running w /\
  In (CInit 50000000 9) (calls w) /\ 9 <> 0 /\
  halts_printing demo_build demo_platform w0
                 (failure_block "Serial Flash initialization failed" 9) /\
  forall m w' c,
    run demo_platform m (main demo_build) w0 = Running w' -> In c (calls w') ->
    c = CInit 50000000 9.
Proof.
  cbv zeta.
  assert (H1 : run demo_platform 10 (main demo_build) (boot (demo_sim [9]) true) =
               Running (world_of (run demo_platform 10 (main demo_build)
                                      (boot (demo_sim [9]) true))))
    by (vm_compute; reflexivity).
  assert (H2 : In (CInit 50000000 9)
                  (calls (world_of (run demo_platform 10 (main demo_build)
                                        (boot (demo_sim [9]) true)))))
    by (vm_compute; left; reflexivity).
  assert (H3 : 9 <> 0) by discriminate.
  split; [exact H1|]. split; [exact H2|]. split; [exact H3|].
  exact (@init_failure_stops_before_any_transfer demo_build Sim demo_platform
           (demo_sim [9]) true 10 _ 50000000 9 H1 H2 H3).
Defined.

(** The erase fails with status 3. *)
Lemma failure_names_its_step_witness :
  let w0 := boot (demo_sim [0; 3]) true in
  let w := world_of (run demo_platform 15 (main demo_build) w0) in
  run demo_platform 15 (main demo_build) w0 = Running w /\
  In (CErase 128 128 3) (calls w) /\
  halts_printing demo_build demo_platform w0 (failure_block "Erasing memory failed" 3).
Proof.
  cbv zeta.
  assert (H1 : run demo_platform 15 (main demo_build) (boot (demo_sim [0; 3]) true) =
               Running (world_of (run demo_platform 15 (main demo_build)
                                      (boot (demo_sim [0; 3]) true))))
    by (vm_compute; reflexivity).
  assert (H2 : In (CErase 128 128 3)
                  (calls (world_of (run demo_platform 15 (main demo_build)
                                        (boot (demo_sim [0; 3]) true)))))
    by (vm_compute; do 3 right; left; reflexivity).
  split; [exact H1|]. split; [exact H2|].
  destruct (@failure_names_its_step demo_build Sim demo_platform
              (demo_sim [0; 3]) true 15 _ H1) as [He _].
  apply (He 128 128 3 H2). discriminate.
Defined.

(** A passing run, just after the read back. *)
Lemma clean_readback_enables_xip_witness :
  let w0 := boot (demo_sim []) true in
  let w := world_of (run demo_platform 300 (main demo_build) w0) in
  run demo_platform 300 (main demo_build) w0 = Running w /\
  In (CRead 128 64 0 pattern) (after_write (calls w)) /\
  exists m w',
    run demo_platform m (main demo_build) w0 = Running w' /\
    In (CEnableXip true) (calls w') /\
    shows (console w') (nl ++ "SUCCESS: Read data matches with written data!" ++ nl).
Proof.
  cbv zeta.
  assert (H1 : run demo_platform 300 (main demo_build) (boot (demo_sim []) true) =
               Running (world_of (run demo_platform 300 (main demo_build)
                                      (boot (demo_sim []) true))))
    by (vm_compute; reflexivity).
  assert (H2 : In (CRead 128 64 0 pattern)
                  (after_write
                     (calls (world_of (run demo_platform 300 (main demo_build)
                                           (boot (demo_sim []) true))))))
    by (vm_compute; left; reflexivity).
  split; [exact H1|]. split; [exact H2|].
  exact (@clean_readback_enables_xip demo_build Sim demo_platform
           (demo_sim []) true 300 _ 128 64 H1 H2).
Defined.

(** The string linked below the window. *)
Lemma misplaced_symbol_halts_witness :
  let w0 := boot (demo_sim []) true in
  let w := world_of (run demo_platform 500 (main misplaced_build) w0) in
  run demo_platform 500 (main misplaced_build) w0 = Running w /\
  In (CEnableXip true) (calls w) /\
  u32 (hi_word_addr misplaced_build) < baseAddress misplaced_build /\
  halts_printing misplaced_build demo_platform w0
    (placement_block "String not found in external memory."
                     (u32 (hi_word_addr misplaced_build))).
Proof.
  cbv zeta.
  assert (H1 : run demo_platform 500 (main misplaced_build) (boot (demo_sim []) true) =
               Running (world_of (run demo_platform 500 (main misplaced_build)
                                      (boot (demo_sim []) true))))
    by (vm_compute; reflexivity).
  assert (H2 : In (CEnableXip true)
                  (calls (world_of (run demo_platform 500 (main misplaced_build)
                                        (boot (demo_sim []) true)))))
    by (vm_compute; do 7 right; left; reflexivity).
  assert (H3 : u32 (hi_word_addr misplaced_build) < baseAddress misplaced_build)
    by reflexivity.
  split; [exact H1|]. split; [exact H2|]. split; [exact H3|].
  destruct (@misplaced_symbol_halts misplaced_build Sim demo_platform
              (demo_sim []) true 500 _ H1 H2) as [Hs _].
  exact (Hs H3).
Defined.

(** A passing run with both symbols inside the window. *)
Lemma passing_run_blinks_forever_witness :
  let w0 := boot (demo_sim []) true in
  let w := world_of (run demo_platform 500 (main demo_build) w0) in
  run demo_platform 500 (main demo_build) w0 = Running w /\
  In (CEnableXip true) (calls w) /\
  baseAddress demo_build <= u32 (hi_word_addr demo_build) /\
  baseAddress demo_build <= u32 (print_from_external_memory_addr demo_build) /\
  exists steps wf,
    (forall k,
       run demo_platform (steps + 3 * k) (main demo_build) w0 =
       Running (set_led (Nat.iter k negb true) wf)) /\
    shows (console wf) (nl ++ "Hello from the external function!" ++ nl) /\
    shows (console wf) (nl ++ "SUCCESS: Data successfully accessed in XIP mode!" ++ nl).
Proof.
  cbv zeta.
  assert (H1 : run demo_platform 500 (main demo_build) (boot (demo_sim []) true) =
               Running (world_of (run demo_platform 500 (main demo_build)
                                      (boot (demo_sim []) true))))
    by (vm_compute; reflexivity).
  assert (H2 : In (CEnableXip true)
                  (calls (world_of (run demo_platform 500 (main demo_build)
                                        (boot (demo_sim []) true)))))
    by (vm_compute; do 7 right; left; reflexivity).
  assert (H3 : baseAddress demo_build <= u32 (hi_word_addr demo_build))
    by (vm_compute; discriminate).
  assert (H4 : baseAddress demo_build <= u32 (print_from_external_memory_addr demo_build))
    by (vm_compute; discriminate).
  split; [exact H1|]. split; [exact H2|]. split; [exact H3|]. split; [exact H4|].
  exact (@passing_run_blinks_forever demo_build Sim demo_platform
           (demo_sim []) true 500 _ H1 H2 H3 H4).
Defined.

(** Two buffers of 64 bytes of junk, byte 37. *)
Lemma init_buffers_fills_one_packet_witness :
  List.length (repeat xaa 64) = Z.to_nat PACKET_SIZE /\
  List.length (repeat x55 64) = Z.to_nat PACKET_SIZE /\
  (37 < Z.to_nat PACKET_SIZE)%nat /\
  nth_error (fst (init_buffers (repeat xaa 64) (repeat x55 64))) 37 = Some (u8 (Z.of_nat 37)) /\
  nth_error (snd (init_buffers (repeat xaa 64) (repeat x55 64))) 37 = Some x00.
Proof.
  assert (H1 : List.length (repeat xaa 64) = Z.to_nat PACKET_SIZE) by reflexivity.
  assert (H2 : List.length (repeat x55 64) = Z.to_nat PACKET_SIZE) by reflexivity.
  assert (H3 : (37 < Z.to_nat PACKET_SIZE)%nat) by (vm_compute; lia).
  split; [exact H1|]. split; [exact H2|]. split; [exact H3|].
  exact (proj2 (proj2 (@init_buffers_fills_one_packet
                         (repeat xaa 64) (repeat x55 64) 37%nat H1 H2 H3))).
Defined.

(** The same two bytes dumped twice. *)
Lemma print_array_dump_is_faithful_witness :
  let w0 := boot (demo_sim []) true in
  let t := print_array "Data" [x00; xff] (Z.of_nat (List.length [x00; xff])) in
  let w1 := world_of (run demo_platform 10 t w0) in
  List.length [x00; xff] = List.length [x00; xff] /\
  Z.of_nat (List.length [x00; xff]) < 2 ^ 32 /\
  run demo_platform 10 t w0 = Returned tt w1 4 /\
  console w1 = console w1 /\
  [x00; xff] = [x00; xff].
Proof.
  cbv zeta.
  assert (H1 : List.length [x00; xff] = List.length [x00; xff]) by reflexivity.
  assert (H2 : Z.of_nat (List.length [x00; xff]) < 2 ^ 32) by reflexivity.
  assert (H3 : run demo_platform 10
                   (print_array "Data" [x00; xff] (Z.of_nat (List.length [x00; xff])))
                   (boot (demo_sim []) true) =
               Returned tt
                 (world_of (run demo_platform 10
                               (print_array "Data" [x00; xff]
                                            (Z.of_nat (List.length [x00; xff])))
                               (boot (demo_sim []) true))) 4)
    by (vm_compute; reflexivity).
  split; [exact H1|]. split; [exact H2|]. split; [exact H3|]. split; [reflexivity|].
  exact (@print_array_dump_is_faithful Sim demo_platform "Data" [x00; xff] [x00; xff]
           _ _ _ 10 10 4 4 H1 H2 H3 H3 eq_refl).
Defined.
